(** * url-shortener-microservice: short-code allocation and lookup

    A shallow embedding of [app.js]: the code generator of
    [generateShortURL], the counter kept in the file [./count], the
    [shorturls] collection, and the handler of [GET /new/*] with its
    callback chain [checkURL], [findURL], [addURL]. *)

From Equations Require Import Equations.
From Stdlib Require Import NArith PeanoNat List Finite String Ascii Bool Lia.
From Stdlib Require Import DecimalString DecimalN.
Import ListNotations.

Open Scope string_scope.
Open Scope N_scope.

(** ** The alphabet *)

(** [urlChars] is the result of [split('')] on the alphabet literal: an
    array of one-character strings, held here as the list of their
    characters. *)
Definition urlChars : list ascii :=
  list_ascii_of_string
    "1234567890qwertyuiopasdfghjklzxcvbnmQWERTYUIOPASDFGHJKLZXCVBNM~!@$%&*()-_=+[];:',./".

(** [var asciiRange = urlChars.length; var asciiMin = 0;] *)
Definition asciiRange : N := N.of_nat (List.length urlChars).
Definition asciiMin : N := 0.

(** [arr[i] + str]: an index past the end of the array reads [undefined],
    which string concatenation renders as the text [undefined]. *)
Definition js_at_plus (arr : list ascii) (i : N) (str : string) : string :=
  match nth_error arr (N.to_nat i) with
  | Some c => String c str
  | None => "undefined" ++ str
  end.

(** Case analysis on a value that keeps the equation with the scrutinee. *)
Definition inspect {A : Type} (x : A) : { y : A | x = y } := exist _ x eq_refl.

(** The [do { ... } while (count2 > 0)] loop of [generateShortURL] on exact
    integers: [count2 / asciiRange] is the integer quotient. The body runs
    before the test. The code divides doubles and rounds the quotient
    before [Math.floor] takes it ([floor_quotient], [do_while_double]
    below); the two loops agree on every counter up to [2^53], which is
    every integer the counter can hold, and no further than [83 * 2^47]. *)
Equations? do_while (count2 : N) (str : string) : string
  by wf (N.to_nat count2) lt :=
  do_while count2 str with inspect (0 <? count2 / asciiRange) := {
    | exist _ true more =>
        do_while (count2 / asciiRange)
                 (js_at_plus urlChars (count2 mod asciiRange + asciiMin) str)
    | exist _ false stop =>
        js_at_plus urlChars (count2 mod asciiRange + asciiMin) str }.
Proof.
  change asciiRange with 83 in *. apply N.ltb_lt in more.
  assert (count2 / 83 < count2); [|lia].
  apply N.div_lt; [|lia].
  destruct (N.eq_dec count2 0) as [->|]; [discriminate more|lia].
Qed.

(** The code computed from a counter value: [var str = ""] and the loop. *)
Definition generate (count : N) : string := do_while count "".

(** ** The loop on doubles *)

(** Rounding to the nearest, ties to even: [m0] is the quotient cut off,
    [rem] out of [den] what was cut. *)
Definition round_half_even (m0 rem den : N) : N :=
  match 2 * rem ?= den with
  | Lt => m0
  | Eq => if N.even m0 then m0 else m0 + 1
  | Gt => m0 + 1
  end.

(** [Math.floor(count2 / asciiRange)] as the code computes it, for an
    integer-valued double [count2]: the quotient is first rounded to a
    double, that is to 53 significant bits. With [2^k] the power of two at
    or below the quotient, the doubles around it are the multiples of
    [2^(k-52)]. A quotient below 1 stays below 1. *)
Definition floor_quotient (count2 : N) : N :=
  let q := count2 / asciiRange in
  if q =? 0 then 0
  else
    let k := N.log2 q in
    if k <? 52 then
      let num := count2 * 2 ^ (52 - k) in
      round_half_even (num / asciiRange) (num mod asciiRange) asciiRange
        / 2 ^ (52 - k)
    else
      let den := asciiRange * 2 ^ (k - 52) in
      round_half_even (count2 / den) (count2 mod den) den * 2 ^ (k - 52).

(** The loop of [generateShortURL] with the division of doubles. [None]
    when the turns allowed run out before the loop ends. *)
Fixpoint do_while_double (turns : nat) (count2 : N) (str : string)
    : option string :=
  match turns with
  | O => None
  | S turns' =>
      let str' := js_at_plus urlChars (count2 mod asciiRange + asciiMin) str in
      let count2' := floor_quotient count2 in
      if 0 <? count2' then do_while_double turns' count2' str' else Some str'
  end.

(** The code computed from a counter value, with the division of doubles.
    Each turn at least halves [count2], so one turn per bit is enough. *)
Definition generate_double (count : N) : option string :=
  do_while_double (S (N.to_nat (N.log2 count))) count "".

(** ** Numbers read from and written to [./count] *)

(** The values of [count] the model follows: the integers [0 .. 2^53], on
    which doubles are exact and [%], [/] followed by [Math.floor], and [>]
    agree with the operations of [N]; and [NaN]. *)
Inductive jsnum : Type :=
| JNat (n : N)
| JNaN.

Definition MAX_EXACT : N := 2 ^ 53.

Definition is_space (c : ascii) : bool :=
  let n := N_of_ascii c in
  ((9 <=? n) && (n <=? 13)) || (n =? 32).

Definition is_digit (c : ascii) : bool :=
  let n := N_of_ascii c in (48 <=? n) && (n <=? 57).

(** The characters that occur in some numeric string literal: digits, sign,
    point, exponent mark, the radix prefixes with the hexadecimal digits,
    and the letters of [Infinity]. *)
Definition numeric_letters : list ascii :=
  list_ascii_of_string "+-.eExXoObBaAcCdDfFInity".

Definition is_numeric_char (c : ascii) : bool :=
  is_digit c || existsb (Ascii.eqb c) numeric_letters.

(** A character that rules a numeric reading out: it is ASCII, it is not
    white space (so trimming keeps it) and no numeric literal contains it. *)
Definition is_foreign (c : ascii) : bool :=
  (N_of_ascii c <? 128) && negb (is_space c) && negb (is_numeric_char c).

Fixpoint drop_spaces (l : list ascii) : list ascii :=
  match l with
  | c :: l' => if is_space c then drop_spaces l' else l
  | [] => []
  end.

Definition trim (l : list ascii) : list ascii :=
  rev (drop_spaces (rev (drop_spaces l))).

(** [Number(buf.toString())] on the part of its domain that the model
    follows. A text with a foreign character is [NaN]; a text that is white
    space around a possibly empty run of decimal digits is that integer, the
    empty run being [0]. [None] marks every other text (signs, fractions,
    exponents, radix prefixes, [Infinity], integers above [2^53], bytes
    outside ASCII): their values are not followed. *)
Definition Number_ (s : string) : option jsnum :=
  let l := list_ascii_of_string s in
  if existsb is_foreign l then Some JNaN
  else
    match NilEmpty.uint_of_string (string_of_list_ascii (trim l)) with
    | Some d =>
        let n := N.of_uint d in
        if n <=? MAX_EXACT then Some (JNat n) else None
    | None => None
    end.

(** [count++] on a double: [2^53 + 1] is not a double and rounds back to
    [2^53]. *)
Definition js_incr (count : jsnum) : jsnum :=
  match count with
  | JNat n => if n <? MAX_EXACT then JNat (n + 1) else JNat n
  | JNaN => JNaN
  end.

(** The text [fs.writeFile] stores for a number: its string conversion. *)
Definition String_ (count : jsnum) : string :=
  match count with
  | JNat n => NilEmpty.string_of_uint (N.to_uint n)
  | JNaN => "NaN"
  end.

(** The loop of [generateShortURL] on a value of [count]. On [NaN] the body
    runs once: [urlChars[NaN]] is [undefined], [Math.floor(NaN)] is [NaN]
    and [NaN > 0] is false. *)
Definition encode (count : jsnum) : string :=
  match count with
  | JNat n => generate n
  | JNaN => "undefined" ++ ""
  end.

(** ** The store and the asynchronous operations *)

(** A document of the [shorturls] collection, without its [_id], which
    every reader projects away or deletes. *)
Record doc : Type := { original_url : string; short_url : string }.

(** The mutable state shared by all requests: the file [./count] ([None]
    when it does not exist) and the collection, in insertion order. The code
    creates no index, so the collection accepts any document. *)
Record world : Type := { count_file : option string; shorturls : list doc }.

Inductive error : Type := NetworkError | MongoError | FsError.

(** What a Node callback receives: [cb(err)] or [cb(null, value)]. *)
Inductive reply (V : Type) : Type :=
| Failed (err : error)
| Got (v : V).
Arguments Failed {V} err.
Arguments Got {V} v.

Inductive method : Type := http | https.

Inductive response : Type :=
| EndText (status : N) (body : string)     (* res.status(n).end(body) *)
| JsonDoc (status : N) (d : doc).          (* res.status(n).json(d) *)

(** A computation in callback-passing style: either finished, or one
    pending asynchronous operation together with its callback. *)
Inductive task (A : Type) : Type :=
| Ret (a : A)
| Throw                                    (* uncaught exception in a callback *)
| Unfollowed                               (* a number the model does not follow *)
| HttpGet (m : method) (url : string) (k : reply unit -> task A)
| MongoConnect (k : reply unit -> task A)
| FindOne (url : string) (k : reply (option doc) -> task A)
| Insert (d : doc) (k : reply doc -> task A)
| ReadFile (k : reply string -> task A)
| WriteFile (data : string) (k : reply unit -> task A).
Arguments Ret {A} a.
Arguments Throw {A}.
Arguments Unfollowed {A}.
Arguments HttpGet {A} m url k.
Arguments MongoConnect {A} k.
Arguments FindOne {A} url k.
Arguments Insert {A} d k.
Arguments ReadFile {A} k.
Arguments WriteFile {A} data k.

(** Whether the environment makes an operation fail when it is performed:
    the host is unreachable, the database or the disk reports an error. *)
Inductive fault : Type := NoFault | Fault.

Definition do_get (f : fault) : reply unit :=
  match f with NoFault => Got tt | Fault => Failed NetworkError end.

Definition do_connect (f : fault) : reply unit :=
  match f with NoFault => Got tt | Fault => Failed MongoError end.

(** The filter [{original_url: url}] of a query. *)
Definition same_url (url : string) (d : doc) : bool :=
  String.eqb (original_url d) url.

(** [findOne({original_url: url})]: the first matching document, if any. *)
Definition do_find (f : fault) (url : string) (w : world) : reply (option doc) :=
  match f with
  | NoFault => Got (find (same_url url) (shorturls w))
  | Fault => Failed MongoError
  end.

Definition do_insert (f : fault) (d : doc) (w : world) : world * reply doc :=
  match f with
  | NoFault =>
      ({| count_file := count_file w; shorturls := shorturls w ++ [d] |}, Got d)
  | Fault => (w, Failed MongoError)
  end.

(** [fs.readFile('./count')] also fails when the file does not exist. *)
Definition do_read (f : fault) (w : world) : reply string :=
  match f, count_file w with
  | NoFault, Some s => Got s
  | _, _ => Failed FsError
  end.

(** A write that fails is taken to leave the file as it was. *)
Definition do_write (f : fault) (data : string) (w : world) : world * reply unit :=
  match f with
  | NoFault => ({| count_file := Some data; shorturls := shorturls w |}, Got tt)
  | Fault => (w, Failed FsError)
  end.

(** Whether a computation still waits for an operation. *)
Definition pending {A} (t : task A) : bool :=
  match t with
  | Ret _ | Throw | Unfollowed => false
  | _ => true
  end.

(** One turn of the event loop for one computation: its pending operation
    is performed on the store and its callback runs. *)
Definition step {A} (f : fault) (w : world) (t : task A) : world * task A :=
  match t with
  | Ret _ | Throw | Unfollowed => (w, t)
  | HttpGet _ _ k => (w, k (do_get f))
  | MongoConnect k => (w, k (do_connect f))
  | FindOne url k => (w, k (do_find f url w))
  | Insert d k => let (w', r) := do_insert f d w in (w', k r)
  | ReadFile k => (w, k (do_read f w))
  | WriteFile data k => let (w', r) := do_write f data w in (w', k r)
  end.

Inductive outcome (A : Type) : Type :=
| Returned (a : A)
| Uncaught
| OutOfModel.
Arguments Returned {A} a.
Arguments Uncaught {A}.
Arguments OutOfModel {A}.

(** The environment of one computation: the fault met by its i-th
    operation. *)
Definition oracle : Type := nat -> fault.
Definition later (o : oracle) : oracle := fun i => o (S i).
Definition no_faults : oracle := fun _ => NoFault.
Definition faults (l : list fault) : oracle := fun i => nth i l NoFault.

(** A computation run alone to its end: no other computation touches the
    store between its operations. *)
Fixpoint run {A} (t : task A) (o : oracle) (w : world) : world * outcome A :=
  match t with
  | Ret a => (w, Returned a)
  | Throw => (w, Uncaught)
  | Unfollowed => (w, OutOfModel)
  | HttpGet _ _ k => run (k (do_get (o 0%nat))) (later o) w
  | MongoConnect k => run (k (do_connect (o 0%nat))) (later o) w
  | FindOne url k => run (k (do_find (o 0%nat) url w)) (later o) w
  | Insert d k =>
      let (w', r) := do_insert (o 0%nat) d w in run (k r) (later o) w'
  | ReadFile k => run (k (do_read (o 0%nat) w)) (later o) w
  | WriteFile data k =>
      let (w', r) := do_write (o 0%nat) data w in run (k r) (later o) w'
  end.

(** Computations in flight over one store, as the event loop holds them. *)
Record system (A : Type) : Type := { store : world; threads : list (task A) }.
Arguments store {A} s.
Arguments threads {A} s.

Fixpoint set_nth {A} (i : nat) (x : A) (l : list A) : list A :=
  match l, i with
  | [], _ => []
  | _ :: l', O => x :: l'
  | y :: l', S i' => y :: set_nth i' x l'
  end.

(** The event loop completes the pending operation of computation [i]. *)
Definition turn {A} (s : system A) (e : nat * fault) : system A :=
  match nth_error (threads s) (fst e) with
  | Some t =>
      let (w', t') := step (snd e) (store s) t in
      {| store := w'; threads := set_nth (fst e) t' (threads s) |}
  | None => s
  end.

Definition schedule {A} (s : system A) (es : list (nat * fault)) : system A :=
  fold_left turn es s.

(** ** The functions of [app.js] *)

(** [checkURL(method, url, cb)]: a GET whose response streams to its end
    calls [cb()], an error on the request or on the response [cb(err)]. *)
Definition checkURL {A} (m : method) (url : string)
    (cb : option error -> task A) : task A :=
  HttpGet m url (fun r =>
    match r with
    | Failed err => cb (Some err)
    | Got _ => cb None
    end).

(** [findURL(url, cb)]. On a failed connect the handler calls [db.close()]
    on the handle the driver did not provide, which throws before [cb]. *)
Definition findURL {A} (url : string)
    (cb : reply (option doc) -> task A) : task A :=
  MongoConnect (fun r =>
    match r with
    | Failed err => Throw
    | Got _ =>
        FindOne url (fun r =>
          match r with
          | Failed err => cb (Failed err)
          | Got None => cb (Got None)
          | Got (Some d) => cb (Got (Some d))
          end)
    end).

(** [generateShortURL(cb)]: read [./count], compute the code, write the
    incremented count, and only then hand the code to [cb]. *)
Definition generateShortURL {A} (cb : reply string -> task A) : task A :=
  ReadFile (fun r =>
    match r with
    | Failed err => cb (Failed err)
    | Got buf =>
        match Number_ buf with
        | None => Unfollowed
        | Some count =>
            let str := encode count in
            let count := js_incr count in
            WriteFile (String_ count) (fun r =>
              match r with
              | Failed err => cb (Failed err)
              | Got _ => cb (Got str)
              end)
        end
    end).

(** [addURL(url, cb)]: "inserts a URL in the database. does not check for
    uniqueness". *)
Definition addURL {A} (url : string) (cb : reply doc -> task A) : task A :=
  MongoConnect (fun r =>
    match r with
    | Failed err => cb (Failed err)
    | Got _ =>
        generateShortURL (fun g =>
          match g with
          | Failed err => cb (Failed err)
          | Got shortUrl =>
              Insert {| original_url := url; short_url := shortUrl |} (fun r =>
                match r with
                | Failed err => cb (Failed err)
                | Got d => cb (Got d)
                end)
          end)
    end).

Record request : Type := { path : string; host : string }.

(** [s.substr(n)] *)
Definition substr_from (n : nat) (s : string) : string :=
  substring n (String.length s - n) s.

(** [_url.short_url = req.headers.host + "/" + _url.short_url] *)
Definition absolute (req : request) (d : doc) : doc :=
  {| original_url := original_url d;
     short_url := host req ++ "/" ++ short_url d |}.

(** The answers of the handler. *)
Definition invalid_url : response :=
  EndText 404 "An error occurred. Is the URL you entered valid?".
Definition database_error : response :=
  EndText 500 "An error occurred connecting to database. Please try again later.".
Definition add_error : response := EndText 500 "An error occurred".
Definition missing_scheme : response :=
  EndText 500
    "The URL you entered is invalid. Please make sure it begins with http:// or https://".

(** The callback the handler passes to [addURL]. *)
Definition on_added (req : request) (r : reply doc) : task response :=
  match r with
  | Failed _ => Ret add_error
  | Got _url => Ret (JsonDoc 200 (absolute req _url))
  end.

(** The callback the handler passes to [findURL]. *)
Definition on_found (req : request) (url : string) (r : reply (option doc))
    : task response :=
  match r with
  | Failed _ => Ret database_error
  | Got None => addURL url (on_added req)
  | Got (Some _url) => Ret (JsonDoc 200 (absolute req _url))
  end.

(** [function cb(err)] of the handler, the callback of [checkURL]. *)
Definition handler_cb (req : request) (url : string) (err : option error)
    : task response :=
  match err with
  | Some _ => Ret invalid_url
  | None => findURL url (on_found req url)
  end.

(** The handler of [GET /new/*]. *)
Definition new_handler (req : request) : task response :=
  let url := substr_from 5 (path req) in
  if String.eqb (substring 0 8 url) "https://" then
    checkURL https url (handler_cb req url)
  else if String.eqb (substring 0 7 url) "http://" then
    checkURL http url (handler_cb req url)
  else Ret missing_scheme.

(** The URL has one of the two scheme prefixes the handler accepts. *)
Definition has_scheme (url : string) : bool :=
  String.eqb (substring 0 8 url) "https://"
  || String.eqb (substring 0 7 url) "http://".

(** ** Sample data *)

Definition example_com : request :=
  {| path := "/new/http://example.com"; host := "sho.rt" |}.
Definition example_org : request :=
  {| path := "/new/https://example.org"; host := "sho.rt" |}.
Definition fresh : world := {| count_file := Some "0"; shorturls := [] |}.


(** [n] invocations of [generateShortURL], each run to its end before the
    next one starts, with no fault; the results in order. *)
Fixpoint sequential_calls (n : nat) (w : world)
    : world * list (outcome (reply string)) :=
  match n with
  | O => (w, [])
  | S n' =>
      let (w1, r) := run (generateShortURL Ret) no_faults w in
      let (w2, rs) := sequential_calls n' w1 in
      (w2, r :: rs)
  end.

(** The number of documents the collection holds for a URL. *)
Definition url_count (url : string) (w : world) : nat :=
  List.length (filter (same_url url) (shorturls w)).

(** ** The generator as the specification words it *)

(** The character at an index of the alphabet. *)
Definition alphabet_char (i : N) : ascii := nth (N.to_nat i) urlChars zero.

(** "Repeatedly take value mod A as the next character from the
    least-significant end, then integer-divide by A, stopping when the
    quotient reaches 0": the digits, least significant first. *)
Equations? spec_digits (value : N) : list N by wf (N.to_nat value) lt :=
  spec_digits value with inspect (value / asciiRange =? 0) := {
    | exist _ true reached => [value mod asciiRange]
    | exist _ false nonzero =>
        value mod asciiRange :: spec_digits (value / asciiRange) }.
Proof.
  change asciiRange with 83 in *. apply N.eqb_neq in nonzero.
  assert (value / 83 < value); [|lia].
  apply N.div_lt; [|lia].
  destruct (N.eq_dec value 0) as [->|]; [now elim nonzero|lia].
Qed.

(** The code, most significant digit first. *)
Definition spec_generate (value : N) : string :=
  string_of_list_ascii (map alphabet_char (rev (spec_digits value))).

(** Reading a code back, for the proof that codes do not collide: the
    position of a character in the alphabet, and the positional value. *)
Fixpoint index_in (c : ascii) (l : list ascii) : N :=
  match l with
  | [] => 0
  | x :: l' => if Ascii.eqb c x then 0 else 1 + index_in c l'
  end.

Definition decode (s : string) : N :=
  fold_left (fun acc c => acc * asciiRange + index_in c urlChars)
            (list_ascii_of_string s) 0.

(** ** The route [GET /*] *)

(** The filter [{short_url: code}] of a query. *)
Definition same_code (code : string) (d : doc) : bool :=
  String.eqb (short_url d) code.

Inductive get_response : Type :=
| Redirect (status : N) (location : string)   (* res.redirect(location) *)
| GetEnd (status : N) (body : string).        (* res.status(n).end(body) *)

(** The computations of this route: a connect and a query by code. They
    never write to the store. *)
Inductive lookup (A : Type) : Type :=
| LRet (a : A)
| LThrow
| LConnect (k : reply unit -> lookup A)
| LFindOne (code : string) (k : reply (option doc) -> lookup A).
Arguments LRet {A} a.
Arguments LThrow {A}.
Arguments LConnect {A} k.
Arguments LFindOne {A} code k.

(** [findOne({short_url: code})]: the first matching document, if any. *)
Definition do_find_code (f : fault) (code : string) (w : world)
    : reply (option doc) :=
  match f with
  | NoFault => Got (find (same_code code) (shorturls w))
  | Fault => Failed MongoError
  end.

Fixpoint lookup_run {A} (t : lookup A) (o : oracle) (w : world) : outcome A :=
  match t with
  | LRet a => Returned a
  | LThrow => Uncaught
  | LConnect k => lookup_run (k (do_connect (o 0%nat))) (later o) w
  | LFindOne code k => lookup_run (k (do_find_code (o 0%nat) code w)) (later o) w
  end.

(** The handler of [GET /*], on [req.url]. As in [findURL], a failed
    connect calls [db.close()] on a handle that is not there. *)
Definition get_handler (req_url : string) : lookup get_response :=
  LConnect (fun r =>
    match r with
    | Failed err => LThrow
    | Got _ =>
        LFindOne (substr_from 1 req_url) (fun r =>
          match r with
          | Failed _ | Got None =>
              LRet (GetEnd 404
                ("No short_url found with id " ++ substr_from 1 req_url))
          | Got (Some url) => LRet (Redirect 302 (original_url url))
          end)
    end).

(** A text that consists of white space only; the empty text is one. *)
Definition blank (s : string) : bool :=
  forallb is_space (list_ascii_of_string s).

(** ** The store as sequential use keeps it *)

(** The counter file reads as the integer [n]. *)
Definition counter_is (n : N) (w : world) : Prop :=
  exists buf, count_file w = Some buf /\ Number_ buf = Some (JNat n).

(** The counter reads as [n], no URL and no code occurs twice in the
    collection, and every code there is the code of a value below [n]. *)
Definition well_formed (n : N) (w : world) : Prop :=
  counter_is n w /\
  NoDup (map original_url (shorturls w)) /\
  NoDup (map short_url (shorturls w)) /\
  Forall (fun d => exists i, i < n /\ short_url d = generate i) (shorturls w).

(** The store after [example_com] has been shortened on [fresh]. *)
Definition one_stored : world :=
  {| count_file := Some "1";
     shorturls := [ {| original_url := "http://example.com";
                       short_url := "1" |} ] |}.

(** * Properties *)

Example generate_0 : generate 0 = "1". Proof. reflexivity. Qed.
Example generate_82 : generate 82 = "/". Proof. reflexivity. Qed.
Example generate_83 : generate 83 = "21". Proof. reflexivity. Qed.
Example generate_6889 : generate 6889 = "211". Proof. reflexivity. Qed.
Example spec_generate_6972 : spec_generate 6972 = "221". Proof. reflexivity. Qed.
Example decode_221 : decode "221" = 6972. Proof. reflexivity. Qed.
Example Number_0 : Number_ "0" = Some (JNat 0). Proof. reflexivity. Qed.
Example Number_empty : Number_ "" = Some (JNat 0). Proof. reflexivity. Qed.
Example Number_nl : Number_ (String "010" "") = Some (JNat 0). Proof. reflexivity. Qed.
Example Number_41 : Number_ " 41 " = Some (JNat 41). Proof. reflexivity. Qed.
Example Number_junk : Number_ "eleven" = Some JNaN. Proof. reflexivity. Qed.
Example Number_frac : Number_ "1.5" = None. Proof. reflexivity. Qed.
Example String_120 : String_ (JNat 120) = "120". Proof. reflexivity. Qed.

Example first_shortening :
  run (new_handler example_com) no_faults fresh =
  ({| count_file := Some "1";
      shorturls := [ {| original_url := "http://example.com"; short_url := "1" |} ] |},
   Returned (JsonDoc 200
     {| original_url := "http://example.com"; short_url := "sho.rt/1" |})).
Proof. reflexivity. Qed.

Example second_shortening :
  let w1 := fst (run (new_handler example_com) no_faults fresh) in
  let w2 := fst (run (new_handler example_org) no_faults w1) in
  snd (run (new_handler example_org) no_faults w1) =
    Returned (JsonDoc 200
      {| original_url := "https://example.org"; short_url := "sho.rt/2" |}) /\
  run (new_handler example_com) no_faults w2 =
    (w2, Returned (JsonDoc 200
      {| original_url := "http://example.com"; short_url := "sho.rt/1" |})).
Proof. split; reflexivity. Qed.

Example no_scheme :
  run (new_handler {| path := "/new/example.com"; host := "sho.rt" |})
      no_faults fresh = (fresh, Returned missing_scheme).
Proof. reflexivity. Qed.

Example failed_connect_in_findURL :
  run (new_handler example_com) (faults [NoFault; Fault]) fresh =
  (fresh, Uncaught).
Proof. reflexivity. Qed.

(** ** The generator *)

Lemma asciiRange_eq : asciiRange = 83.
Proof. reflexivity. Qed.

(** The loop, unfolded once. *)
Lemma do_while_once (count2 : N) (str : string) :
  do_while count2 str =
  let str' := js_at_plus urlChars (count2 mod asciiRange + asciiMin) str in
  if 0 <? count2 / asciiRange then do_while (count2 / asciiRange) str' else str'.
Proof.
  simp do_while. cbv zeta.
  destruct (inspect (0 <? count2 / asciiRange)) as [[|] E];
    simp do_while; rewrite E; reflexivity.
Qed.

Lemma spec_digits_once (value : N) :
  spec_digits value =
  value mod asciiRange ::
    (if value / asciiRange =? 0 then [] else spec_digits (value / asciiRange)).
Proof.
  simp spec_digits.
  destruct (inspect (value / asciiRange =? 0)) as [[|] E];
    simp spec_digits; rewrite E; reflexivity.
Qed.

Lemma append_String (s : string) (c : ascii) (t : string) :
  s ++ String c t = (s ++ String c "") ++ t.
Proof. induction s as [|x s IH]; simpl; [reflexivity | now rewrite IH]. Qed.

Lemma string_of_app (l1 l2 : list ascii) :
  string_of_list_ascii (l1 ++ l2) =
  string_of_list_ascii l1 ++ string_of_list_ascii l2.
Proof. induction l1 as [|x l1 IH]; simpl; [reflexivity | now rewrite IH]. Qed.

Lemma list_of_append (s t : string) :
  list_ascii_of_string (s ++ t) =
  (list_ascii_of_string s ++ list_ascii_of_string t)%list.
Proof. induction s as [|x s IH]; simpl; [reflexivity | now rewrite IH]. Qed.

Lemma length_append (s t : string) :
  String.length (s ++ t) = (String.length s + String.length t)%nat.
Proof. induction s as [|x s IH]; simpl; [reflexivity | now rewrite IH]. Qed.

(** An index below the size of the alphabet reads a character of it. *)
Lemma at_alphabet (i : N) (str : string) :
  i < asciiRange ->
  js_at_plus urlChars (i + asciiMin) str = String (alphabet_char i) str.
Proof.
  intros Hi. unfold js_at_plus, asciiMin, alphabet_char. rewrite N.add_0_r.
  rewrite (nth_error_nth' urlChars zero); [reflexivity|].
  unfold asciiRange in Hi. lia.
Qed.

Lemma digit_in_range (n : N) : n mod asciiRange < asciiRange.
Proof. apply N.mod_lt. rewrite asciiRange_eq. discriminate. Qed.

(** The loop prepends the digits of [count2] to what it has accumulated. *)
Lemma do_while_acc (count2 : N) :
  forall str, do_while count2 str = do_while count2 "" ++ str.
Proof.
  induction count2 as [count2 IH] using (well_founded_induction N.lt_wf_0).
  intros str. rewrite (do_while_once count2 str), (do_while_once count2 "").
  cbv zeta. rewrite !at_alphabet by apply digit_in_range.
  destruct (0 <? count2 / asciiRange) eqn:E; [|reflexivity].
  assert (count2 / asciiRange < count2) as Hlt.
  { apply N.ltb_lt in E. rewrite asciiRange_eq in *.
    apply N.div_lt; [|lia].
    destruct (N.eq_dec count2 0) as [->|]; [discriminate E|lia]. }
  rewrite (IH _ Hlt (String _ str)), (IH _ Hlt (String _ "")).
  apply append_String.
Qed.

(** The code of a value: one character below the size of the alphabet, and
    otherwise the code of the quotient followed by the character of the
    remainder. *)
Lemma generate_rec (n : N) :
  generate n =
  if n <? asciiRange then String (alphabet_char n) ""
  else generate (n / asciiRange) ++ String (alphabet_char (n mod asciiRange)) "".
Proof.
  unfold generate. rewrite do_while_once. cbv zeta.
  rewrite at_alphabet by apply digit_in_range.
  destruct (n <? asciiRange) eqn:E.
  - apply N.ltb_lt in E. rewrite N.div_small, N.mod_small by exact E.
    reflexivity.
  - apply N.ltb_ge in E.
    assert (0 < n / asciiRange) as Hq.
    { apply N.div_str_pos. rewrite asciiRange_eq in *. lia. }
    apply N.ltb_lt in Hq. rewrite Hq. apply do_while_acc.
Qed.

Lemma spec_generate_rec (n : N) :
  spec_generate n =
  if n <? asciiRange then String (alphabet_char n) ""
  else spec_generate (n / asciiRange)
       ++ String (alphabet_char (n mod asciiRange)) "".
Proof.
  unfold spec_generate. rewrite (spec_digits_once n).
  destruct (n <? asciiRange) eqn:E.
  - apply N.ltb_lt in E. rewrite N.div_small, N.mod_small by exact E.
    reflexivity.
  - apply N.ltb_ge in E.
    assert ((n / asciiRange =? 0) = false) as ->.
    { apply N.eqb_neq. intros H0.
      assert (0 < n / asciiRange); [|lia].
      apply N.div_str_pos. rewrite asciiRange_eq in *. lia. }
    cbn [rev]. rewrite map_app, string_of_app. reflexivity.
Qed.

Lemma generate_refines (n : N) : generate n = spec_generate n.
Proof.
  induction n as [n IH] using (well_founded_induction N.lt_wf_0).
  rewrite generate_rec, spec_generate_rec.
  destruct (n <? asciiRange) eqn:E; [reflexivity|].
  apply N.ltb_ge in E. rewrite IH; [reflexivity|].
  rewrite asciiRange_eq in *. apply N.div_lt; lia.
Qed.

Lemma round_half_even_cases (m0 rem den : N) :
  round_half_even m0 rem den = m0 \/
  (round_half_even m0 rem den = m0 + 1 /\ den <= 2 * rem).
Proof.
  unfold round_half_even. destruct (2 * rem ?= den) eqn:E.
  - apply N.compare_eq_iff in E. destruct (N.even m0); [left; reflexivity|].
    right. split; [reflexivity | lia].
  - left. reflexivity.
  - apply N.compare_gt_iff in E. right. split; [reflexivity | lia].
Qed.

(** Below [83 * 2^47] the rounded quotient has the same floor as the exact
    one: the doubles around the quotient are at most [1/64] apart, and the
    quotient stays at least [1/83] below the next integer. *)
Lemma floor_quotient_exact (count2 : N) :
  count2 / asciiRange < 2 ^ 47 ->
  floor_quotient count2 = count2 / asciiRange.
Proof.
  intros Hq. unfold floor_quotient. cbv zeta.
  destruct (count2 / asciiRange =? 0) eqn:E0; [apply N.eqb_eq in E0; now rewrite E0|].
  apply N.eqb_neq in E0.
  assert (N.log2 (count2 / asciiRange) < 47) as Hk.
  { apply N.log2_lt_pow2; [apply N.neq_0_lt_0; exact E0 | exact Hq]. }
  assert ((N.log2 (count2 / asciiRange) <? 52) = true) as -> by (apply N.ltb_lt; lia).
  set (s := 52 - N.log2 (count2 / asciiRange)).
  assert (64 <= 2 ^ s) as HP.
  { change 64 with (2 ^ 6). apply N.pow_le_mono_r; [discriminate | unfold s; lia]. }
  set (P := 2 ^ s) in *.
  pose proof (N.div_mod count2 asciiRange) as Ha.
  pose proof (N.mod_lt count2 asciiRange) as Hr.
  pose proof (N.div_mod (count2 * P) asciiRange) as Hn.
  pose proof (N.mod_lt (count2 * P) asciiRange) as Hrem.
  rewrite asciiRange_eq in *.
  specialize (Ha ltac:(discriminate)). specialize (Hr ltac:(discriminate)).
  specialize (Hn ltac:(discriminate)). specialize (Hrem ltac:(discriminate)).
  set (q := count2 / 83) in *. set (r := count2 mod 83) in *.
  set (m0 := count2 * P / 83) in *. set (rem := (count2 * P) mod 83) in *.
  symmetry. apply (N.div_unique _ P q (round_half_even m0 rem 83 - P * q)).
  - destruct (round_half_even_cases m0 rem 83) as [-> | [-> Hup]]; nia.
  - destruct (round_half_even_cases m0 rem 83) as [-> | [-> Hup]]; nia.
Qed.

Lemma log2_quotient_smaller (n : N) :
  0 < n / asciiRange -> N.log2 (n / asciiRange) < N.log2 n.
Proof.
  intros Hq.
  pose proof (N.Div0.mul_div_le n asciiRange) as Hm. rewrite asciiRange_eq in *.
  set (q := n / 83) in *.
  assert (N.log2 (2 * q) <= N.log2 n) as Hle by (apply N.log2_le_mono; lia).
  rewrite (N.log2_double q Hq) in Hle. lia.
Qed.

(** With enough turns the loop on doubles ends, and below [83 * 2^47] it
    gives what the loop on exact integers gives. *)
Lemma do_while_double_exact (turns : nat) :
  forall (count2 : N) (str : string),
    count2 / asciiRange < 2 ^ 47 ->
    (N.to_nat (N.log2 count2) < turns)%nat ->
    do_while_double turns count2 str = Some (do_while count2 str).
Proof.
  induction turns as [|turns IH]; intros count2 str Hq Ht; [lia|].
  cbn [do_while_double]. rewrite (floor_quotient_exact count2 Hq).
  rewrite (do_while_once count2 str). cbv zeta.
  destruct (0 <? count2 / asciiRange) eqn:E; [|reflexivity].
  apply N.ltb_lt in E. apply IH.
  - apply N.le_lt_trans with (count2 / asciiRange); [|exact Hq].
    generalize (count2 / asciiRange). intros q.
    apply N.Div0.div_le_upper_bound. rewrite asciiRange_eq. lia.
  - pose proof (log2_quotient_smaller count2 E). lia.
Qed.

Lemma exact_range (n : N) : n <= MAX_EXACT -> n / asciiRange < 2 ^ 47.
Proof.
  intros Hn. apply N.Div0.div_lt_upper_bound.
  apply N.le_lt_trans with MAX_EXACT; [exact Hn | reflexivity].
Qed.

(** On every counter up to [2^53] the code computes the code of the exact
    loop. *)
Lemma generate_double_exact (n : N) :
  n <= MAX_EXACT -> generate_double n = Some (generate n).
Proof.
  intros Hn. unfold generate_double, generate.
  apply do_while_double_exact; [now apply exact_range | lia].
Qed.

(** C4, as the code has it: for every counter value [n] up to [2^53]
    (every integer the counter can hold) the generator returns the string
    of the specified algorithm (value mod A as the next character from the
    least-significant end, integer division by A, until the quotient is 0);
    the code of 0 is the single character at index 0 of the alphabet, and a
    zero digit is kept: the code of a positive multiple of A in that range
    ends with that character. *)
Theorem C4_generate_matches_algorithm (n : N) :
  n <= MAX_EXACT ->
  generate_double n = Some (spec_generate n) /\
  generate_double 0 = Some (String (alphabet_char 0) "") /\
  (asciiRange * (n + 1) <= MAX_EXACT ->
   generate_double (asciiRange * (n + 1)) =
   option_map (fun s => s ++ String (alphabet_char 0) "")
              (generate_double (n + 1))).
Proof.
  intros Hn. split; [|split].
  - rewrite (generate_double_exact n Hn). f_equal. apply generate_refines.
  - reflexivity.
  - intros Hm.
    assert (n + 1 <= MAX_EXACT) as Hs by (rewrite asciiRange_eq in Hm; lia).
    rewrite (generate_double_exact _ Hm), (generate_double_exact _ Hs).
    cbn [option_map]. f_equal.
    rewrite (generate_rec (asciiRange * (n + 1))).
    assert ((asciiRange * (n + 1) <? asciiRange) = false) as ->.
    { apply N.ltb_ge. rewrite asciiRange_eq. lia. }
    rewrite N.mul_comm, N.div_mul, N.Div0.mod_mul; [reflexivity|].
    rewrite asciiRange_eq. discriminate.
Qed.

Lemma C4_generate_matches_algorithm_witness :
  (6972 <= MAX_EXACT /\ asciiRange * (6972 + 1) <= MAX_EXACT) /\
  generate_double 6972 = Some (spec_generate 6972) /\
  generate_double 0 = Some (String (alphabet_char 0) "") /\
  generate_double (asciiRange * (6972 + 1)) =
  option_map (fun s => s ++ String (alphabet_char 0) "")
             (generate_double (6972 + 1)).
Proof.
  split; [split; discriminate|].
  destruct (C4_generate_matches_algorithm 6972) as (H1 & H2 & H3);
    [discriminate|].
  split; [exact H1|]. split; [exact H2|]. apply H3. discriminate.
Defined.

(** The characters of the alphabet are pairwise different: reading the
    position of the character at an index gives the index back. *)
Lemma index_in_alphabet (i : N) :
  i < asciiRange -> index_in (alphabet_char i) urlChars = i.
Proof.
  intros Hi. rewrite asciiRange_eq in Hi.
  rewrite <- (N2Nat.id i). unfold alphabet_char. rewrite Nat2N.id.
  assert (N.to_nat i < 83)%nat as Hk by lia. clear Hi.
  generalize dependent (N.to_nat i). clear i. intros k Hk.
  do 83 (destruct k as [|k]; [reflexivity|]). lia.
Qed.

Lemma decode_snoc (s : string) (c : ascii) :
  decode (s ++ String c "") = decode s * asciiRange + index_in c urlChars.
Proof.
  unfold decode. rewrite list_of_append, fold_left_app. reflexivity.
Qed.

(** Reading a generated code back gives the value it was generated from. *)
Lemma decode_generate (n : N) : decode (generate n) = n.
Proof.
  induction n as [n IH] using (well_founded_induction N.lt_wf_0).
  rewrite generate_rec. destruct (n <? asciiRange) eqn:E.
  - apply N.ltb_lt in E. unfold decode. cbn [list_ascii_of_string fold_left].
    rewrite index_in_alphabet by exact E. lia.
  - apply N.ltb_ge in E. rewrite decode_snoc.
    rewrite index_in_alphabet by apply digit_in_range.
    rewrite IH.
    + rewrite N.mul_comm. symmetry. apply N.div_mod'.
    + rewrite asciiRange_eq in *. apply N.div_lt; lia.
Qed.

(** C4, as stated for every non-negative integer, fails above that range.
    The counter value 83 * 2^47 + 82 is a double; the code divides it by 83
    as doubles, the quotient 2^47 + 82/83 rounds up to 2^47 + 1 and
    [Math.floor] keeps that, where the integer quotient is 2^47. The string
    the code builds reads back as another number, so it is not the string
    of the specified algorithm. *)
Lemma C4_counterexample :
  let n := 83 * 2 ^ 47 + 82 in
  n = 11681211533492306 /\
  floor_quotient n = 2 ^ 47 + 1 /\ n / asciiRange = 2 ^ 47 /\
  generate_double n = Some "6yE_SXTa/" /\
  "6yE_SXTa/" <> spec_generate n.
Proof.
  cbv zeta. split; [reflexivity|]. split; [reflexivity|].
  split; [reflexivity|]. split; [reflexivity|].
  intros Heq.
  assert (decode "6yE_SXTa/" = 83 * 2 ^ 47 + 82) as Hd.
  { rewrite Heq, <- generate_refines. apply decode_generate. }
  discriminate Hd.
Qed.

(** C5: the generator is injective: two different counter values never get
    the same code. *)
Theorem C5_generate_injective (n1 n2 : N) :
  n1 <> n2 -> generate n1 <> generate n2.
Proof.
  intros Hne Heq. apply Hne.
  rewrite <- (decode_generate n1), <- (decode_generate n2), Heq. reflexivity.
Qed.

Lemma C5_generate_injective_witness :
  82 <> 83 /\ generate 82 <> generate 83.
Proof.
  split; [discriminate | apply C5_generate_injective; discriminate].
Defined.

(** The length of a code is the number of base-[asciiRange] digits of the
    value. *)
Lemma generate_length (k : nat) :
  forall n : N,
    n < asciiRange ^ N.of_nat (S k) ->
    (k = O \/ asciiRange ^ N.of_nat k <= n) ->
    String.length (generate n) = S k.
Proof.
  induction k as [|k IH]; intros n Hup Hlow.
  - rewrite generate_rec. change (asciiRange ^ N.of_nat 1) with asciiRange in Hup.
    apply N.ltb_lt in Hup. rewrite Hup. reflexivity.
  - destruct Hlow as [Hk|Hlow]; [discriminate Hk|].
    rewrite Nat2N.inj_succ, N.pow_succ_r' in Hup, Hlow.
    assert (asciiRange <= n) as Hge.
    { apply N.le_trans with (asciiRange * asciiRange ^ N.of_nat k); [|exact Hlow].
      assert (0 < asciiRange ^ N.of_nat k).
      { apply N.neq_0_lt_0, N.pow_nonzero. rewrite asciiRange_eq. discriminate. }
      nia. }
    rewrite generate_rec. apply N.ltb_ge in Hge. rewrite Hge.
    rewrite length_append. cbn [String.length]. rewrite (IH (n / asciiRange)).
    + lia.
    + apply N.Div0.div_lt_upper_bound. exact Hup.
    + destruct k as [|k]; [left; reflexivity|right].
      apply N.div_le_lower_bound; [rewrite asciiRange_eq; discriminate|].
      exact Hlow.
Qed.

(** C10, as the code has it: the alphabet has 83 characters; the codes of
    the values [0 .. A-1] have length 1 and the codes of the values
    [A .. A^2-1] have length 2. *)
Theorem C10_code_lengths :
  asciiRange = 83 /\
  forall n : N,
    (n < asciiRange -> String.length (generate n) = 1%nat) /\
    (asciiRange <= n < asciiRange ^ 2 -> String.length (generate n) = 2%nat).
Proof.
  split; [reflexivity|]. intros n. split.
  - intros H. apply (generate_length 0); [exact H | left; reflexivity].
  - intros [Hlow Hup]. apply (generate_length 1); [exact Hup | right; exact Hlow].
Qed.

Lemma C10_code_lengths_witness :
  (5 < asciiRange /\ String.length (generate 5) = 1%nat) /\
  (asciiRange <= 100 < asciiRange ^ 2 /\ String.length (generate 100) = 2%nat).
Proof.
  split; split.
  - reflexivity.
  - apply (proj1 (proj2 C10_code_lengths 5)). reflexivity.
  - split; [discriminate | reflexivity].
  - apply (proj2 (proj2 C10_code_lengths 100)).
    split; [discriminate | reflexivity].
Defined.

(** C10, as stated, fails: the alphabet does not have 84 characters, and
    the value 6889 = 83^2, which lies in [A .. A^2+A-1] for A = 83 and for
    A = 84 alike, has a code of length 3. *)
Lemma C10_counterexample :
  asciiRange <> 84 /\
  asciiRange <= 6889 <= asciiRange ^ 2 + asciiRange - 1 /\
  84 <= 6889 <= 84 ^ 2 + 84 - 1 /\
  String.length (generate 6889) = 3%nat.
Proof.
  split; [discriminate|].
  split; [split; discriminate|].
  split; [split; discriminate|reflexivity].
Qed.

(** ** Numbers and their text *)

Lemma digit_not_space (c : ascii) : is_digit c = true -> is_space c = false.
Proof.
  unfold is_digit, is_space. cbv zeta. intros H.
  apply andb_true_iff in H. destruct H as [H1 H2].
  apply N.leb_le in H1. apply N.leb_le in H2.
  apply orb_false_iff. split.
  - apply andb_false_iff. right. apply N.leb_gt. lia.
  - apply N.eqb_neq. lia.
Qed.

Lemma digit_not_foreign (c : ascii) : is_digit c = true -> is_foreign c = false.
Proof.
  intros H. unfold is_foreign, is_numeric_char. rewrite H. cbn [orb negb].
  apply andb_false_r.
Qed.

(** The decimal text of a number consists of digits. *)
Lemma uint_digits (d : Decimal.uint) :
  Forall (fun c => is_digit c = true)
         (list_ascii_of_string (NilEmpty.string_of_uint d)).
Proof.
  induction d; cbn [NilEmpty.string_of_uint list_ascii_of_string];
    constructor; (reflexivity || assumption).
Qed.

Lemma drop_spaces_digits (l : list ascii) :
  Forall (fun c => is_digit c = true) l -> drop_spaces l = l.
Proof.
  intros H. destruct H as [|c l Hc Hl]; [reflexivity|].
  cbn [drop_spaces]. now rewrite (digit_not_space c Hc).
Qed.

Lemma trim_digits (l : list ascii) :
  Forall (fun c => is_digit c = true) l -> trim l = l.
Proof.
  intros H. unfold trim. rewrite (drop_spaces_digits l H).
  rewrite drop_spaces_digits by (apply Forall_rev; exact H).
  apply rev_involutive.
Qed.

Lemma no_foreign_digits (l : list ascii) :
  Forall (fun c => is_digit c = true) l -> existsb is_foreign l = false.
Proof.
  induction 1 as [|c l Hc Hl IH]; [reflexivity|].
  cbn [existsb]. now rewrite (digit_not_foreign c Hc), IH.
Qed.

(** Reading back the text written for an integer of the exact range gives
    that integer. *)
Lemma Number_String (n : N) :
  n <= MAX_EXACT -> Number_ (String_ (JNat n)) = Some (JNat n).
Proof.
  intros Hn. unfold Number_, String_. cbv zeta.
  pose proof (uint_digits (N.to_uint n)) as Hd.
  rewrite (no_foreign_digits _ Hd), (trim_digits _ Hd).
  rewrite string_of_list_ascii_of_string, NilEmpty.usu.
  rewrite DecimalN.Unsigned.of_to.
  apply N.leb_le in Hn. now rewrite Hn.
Qed.

(** An integer read from [./count] is at most [2^53], so the code that
    [generateShortURL] computes for it with the division of doubles is the
    one [encode] gives. *)
Lemma Number_in_range (buf : string) (n : N) :
  Number_ buf = Some (JNat n) -> n <= MAX_EXACT.
Proof.
  unfold Number_. cbv zeta.
  destruct (existsb is_foreign (list_ascii_of_string buf)); [discriminate|].
  destruct (NilEmpty.uint_of_string _) as [d|]; [|discriminate].
  destruct (N.of_uint d <=? MAX_EXACT) eqn:E; [|discriminate].
  intros H. injection H as <-. now apply N.leb_le.
Qed.

Lemma encode_is_double_code (buf : string) (n : N) :
  Number_ buf = Some (JNat n) -> generate_double n = Some (encode (JNat n)).
Proof.
  intros H. apply generate_double_exact, (Number_in_range buf n H).
Qed.

(** ** Running a computation *)

(** Running alone is taking the turns of the event loop one after the
    other. *)
Lemma run_step {A} (t : task A) (o : oracle) (w : world) :
  pending t = true ->
  run t o w = let (w', t') := step (o 0%nat) w t in run t' (later o) w'.
Proof.
  destruct t; cbn [pending]; intros H; try discriminate H;
    cbn [run step]; try reflexivity.
  - destruct (do_insert (o 0%nat) d w); reflexivity.
  - destruct (do_write (o 0%nat) data w); reflexivity.
Qed.

(** The turns of a computation that runs alone in the event loop. *)
Lemma lone_turn {A} (t : task A) (f : fault) (w : world) :
  turn {| store := w; threads := [t] |} (0%nat, f) =
  {| store := fst (step f w t); threads := [snd (step f w t)] |}.
Proof.
  unfold turn. cbn [fst snd threads store nth_error].
  destruct (step f w t) as [w' t']. reflexivity.
Qed.

(** [run] is the event loop with a single computation in flight: some
    number of its turns, with the faults of the oracle in order, ends in
    the store and with the result that [run] gives. *)
Lemma run_schedule {A} (t : task A) :
  forall (o : oracle) (w : world),
  exists (n : nat) (t' : task A),
    schedule {| store := w; threads := [t] |}
             (map (fun i => (0%nat, o i)) (seq 0 n)) =
    {| store := fst (run t o w); threads := [t'] |} /\
    pending t' = false /\
    run t' o w = (w, snd (run t o w)).
Proof.
  assert (forall (k : task A) (o : oracle) (w : world) (f : fault),
            o 0%nat = f ->
            (exists (n : nat) (t' : task A),
               schedule {| store := fst (step f w k); threads := [snd (step f w k)] |}
                        (map (fun i => (0%nat, later o i)) (seq 0 n)) =
               {| store := fst (run (snd (step f w k)) (later o) (fst (step f w k)));
                  threads := [t'] |} /\
               pending t' = false /\
               forall o' w', run t' o' w' =
                 (w', snd (run (snd (step f w k)) (later o) (fst (step f w k))))) ->
            pending k = true ->
            exists (n : nat) (t' : task A),
              schedule {| store := w; threads := [k] |}
                       (map (fun i => (0%nat, o i)) (seq 0 n)) =
              {| store := fst (run k o w); threads := [t'] |} /\
              pending t' = false /\
              forall o' w', run t' o' w' = (w', snd (run k o w))) as Hstep.
  { intros k o w f Hf (n & t' & Hs & Hp & Hr) Hk.
    exists (S n), t'. rewrite (run_step k o w Hk), Hf.
    destruct (step f w k) as [w1 k1] eqn:Es. cbn [fst snd] in *.
    split; [|split; assumption].
    cbn [seq map schedule fold_left]. rewrite Hf, lone_turn, Es.
    cbn [fst snd]. rewrite <- seq_shift, map_map. exact Hs. }
  assert (forall (o : oracle) (w : world),
            exists (n : nat) (t' : task A),
              schedule {| store := w; threads := [t] |}
                       (map (fun i => (0%nat, o i)) (seq 0 n)) =
              {| store := fst (run t o w); threads := [t'] |} /\
              pending t' = false /\
              forall o' w', run t' o' w' = (w', snd (run t o w))) as Hall.
  { induction t as [a| | |m url k IH|k IH|url k IH|d k IH|k IH|data k IH];
      intros o w;
      try (exists 0%nat; eexists; split; [reflexivity|];
           split; reflexivity);
      apply (Hstep _ o w (o 0%nat) eq_refl); try reflexivity;
      cbn [step]; try (destruct (do_insert (o 0%nat) d w));
      try (destruct (do_write (o 0%nat) data w)); apply IH. }
  intros o w. destruct (Hall o w) as (n & t' & Hs & Hp & Hr).
  exists n, t'. auto.
Qed.

(** ** The counter: [generateShortURL] *)

(** One unfolding of [generateShortURL] per way it can go. *)
Lemma generateShortURL_unreadable {A} (cb : reply string -> task A) o w :
  do_read (o 0%nat) w = Failed FsError ->
  run (generateShortURL cb) o w = run (cb (Failed FsError)) (later o) w.
Proof. intros H. cbn [generateShortURL run]. now rewrite H. Qed.

Lemma generateShortURL_read {A} (cb : reply string -> task A) o w buf count :
  o 0%nat = NoFault -> count_file w = Some buf -> Number_ buf = Some count ->
  run (generateShortURL cb) o w =
  match o 1%nat with
  | NoFault =>
      run (cb (Got (encode count))) (later (later o))
          {| count_file := Some (String_ (js_incr count));
             shorturls := shorturls w |}
  | Fault => run (cb (Failed FsError)) (later (later o)) w
  end.
Proof.
  intros H0 Hf Hn. cbn [generateShortURL run]. unfold do_read.
  rewrite H0, Hf, Hn. cbn [run]. unfold do_write, later.
  destruct (o 1%nat); reflexivity.
Qed.

Lemma do_read_cases (f : fault) (w : world) :
  do_read f w = Failed FsError \/
  exists buf, f = NoFault /\ count_file w = Some buf /\ do_read f w = Got buf.
Proof.
  unfold do_read. destruct f; [|left; reflexivity].
  destruct (count_file w) as [buf|]; [right | left; reflexivity].
  exists buf. repeat split.
Qed.

(** An invocation run alone, with no fault, on a counter below [2^53]. *)
Lemma next_value (w : world) (buf : string) (n : N) :
  count_file w = Some buf -> Number_ buf = Some (JNat n) -> n < MAX_EXACT ->
  run (generateShortURL Ret) no_faults w =
  ({| count_file := Some (String_ (JNat (n + 1))); shorturls := shorturls w |},
   Returned (Got (generate n))).
Proof.
  intros Hf Hn Hlt.
  rewrite (generateShortURL_read Ret no_faults w buf (JNat n) eq_refl Hf Hn).
  cbn [no_faults run js_incr encode]. apply N.ltb_lt in Hlt. rewrite Hlt.
  reflexivity.
Qed.

Lemma sequential_values (k : nat) :
  forall (w : world) (buf : string) (current : N),
    count_file w = Some buf -> Number_ buf = Some (JNat current) ->
    current + N.of_nat k < MAX_EXACT ->
    sequential_calls (S k) w =
    ({| count_file := Some (String_ (JNat (current + N.of_nat (S k))));
        shorturls := shorturls w |},
     map (fun i => Returned (Got (generate (current + N.of_nat i))))
         (seq 0 (S k))).
Proof.
  induction k as [|k IH]; intros w buf current Hf Hn Hlt.
  - cbn [sequential_calls].
    rewrite (next_value w buf current Hf Hn) by lia.
    cbn [seq map N.of_nat]. rewrite N.add_0_r. reflexivity.
  - remember (S k) as k' eqn:Ek. cbn [sequential_calls].
    rewrite (next_value w buf current Hf Hn) by lia.
    subst k'.
    rewrite (IH {| count_file := Some (String_ (JNat (current + 1)));
                   shorturls := shorturls w |}
                (String_ (JNat (current + 1))) (current + 1) eq_refl);
      [| apply Number_String; lia | lia].
    cbn [shorturls].
    replace (current + 1 + N.of_nat (S k)) with (current + N.of_nat (S (S k)))
      by lia.
    f_equal. change (seq 0 (S (S k))) with (0%nat :: seq 1 (S k)).
    rewrite <- (seq_shift (S k) 0), map_cons, map_map.
    change (N.of_nat 0) with 0. rewrite N.add_0_r. f_equal.
    apply map_ext. intros i. do 3 f_equal. lia.
Qed.

Lemma issued_injective (current : N) :
  Finite.Injective
    (fun i : nat =>
       @Returned (reply string) (Got (generate (current + N.of_nat i)))).
Proof.
  intros i j H. injection H as H.
  assert (current + N.of_nat i = current + N.of_nat j) as E.
  { rewrite <- (decode_generate (current + N.of_nat i)),
            <- (decode_generate (current + N.of_nat j)), H. reflexivity. }
  lia.
Qed.

(** C1, as the code has it: invocations of [generateShortURL] that run one
    after the other, each to its end, on a persisted value [current] with
    no fault, return the codes of [current], [current+1], ...,
    [current+n-1] in this order, pairwise different, and leave [current+n]
    persisted; this for every [n >= 1] that keeps the counter below
    [2^53]. *)
Theorem C1_sequential_calls_consecutive
    (k : nat) (w : world) (buf : string) (current : N) :
  count_file w = Some buf -> Number_ buf = Some (JNat current) ->
  current + N.of_nat k < MAX_EXACT ->
  let issued :=
    map (fun i => @Returned (reply string)
                    (Got (generate (current + N.of_nat i))))
        (seq 0 (S k)) in
  sequential_calls (S k) w =
    ({| count_file := Some (String_ (JNat (current + N.of_nat (S k))));
        shorturls := shorturls w |}, issued) /\
  NoDup issued.
Proof.
  intros Hf Hn Hlt issued. split.
  - apply (sequential_values k w buf current Hf Hn Hlt).
  - apply Finite.Injective_map_NoDup; [apply issued_injective | apply seq_NoDup].
Qed.

Lemma C1_sequential_calls_consecutive_witness :
  sequential_calls 3 fresh =
    ({| count_file := Some "3"; shorturls := [] |},
     [Returned (Got "1"); Returned (Got "2"); Returned (Got "3")]) /\
  NoDup [@Returned (reply string) (Got "1"); Returned (Got "2");
         Returned (Got "3")].
Proof.
  apply (C1_sequential_calls_consecutive 2 fresh "0" 0);
    [reflexivity | reflexivity | reflexivity].
Defined.

(** C1, as stated, fails for concurrent invocations: when both reads of
    [./count] complete before the first write, the two invocations return
    the same value, and the value after it is never handed out although
    the stored counter ends one step further only. *)
Lemma C1_counterexample :
  let s := schedule
             {| store := fresh;
                threads := [generateShortURL Ret; generateShortURL Ret] |}
             [(0, NoFault); (1, NoFault); (0, NoFault); (1, NoFault)]%nat in
  threads s = [Ret (Got (generate 0)); Ret (Got (generate 0))] /\
  count_file (store s) = Some "1".
Proof. split; reflexivity. Qed.

(** C6: [generateShortURL] hands a code to its caller only after the write
    of the incremented count has succeeded, the file then holding that
    count; and whenever the write of the incremented count fails, the
    caller gets the error and no code. *)
Theorem C6_code_only_after_persisted_increment (o : oracle) (w : world) :
  (forall w' code,
     run (generateShortURL Ret) o w = (w', Returned (Got code)) ->
     o 1%nat = NoFault /\
     exists buf count,
       count_file w = Some buf /\ Number_ buf = Some count /\
       code = encode count /\
       count_file w' = Some (String_ (js_incr count))) /\
  (forall buf count,
     o 0%nat = NoFault -> count_file w = Some buf ->
     Number_ buf = Some count -> o 1%nat = Fault ->
     run (generateShortURL Ret) o w = (w, Returned (Failed FsError))).
Proof.
  split.
  - intros w' code Hrun.
    destruct (do_read_cases (o 0%nat) w) as [Hr | (buf & H0 & Hf & Hr)].
    + rewrite (generateShortURL_unreadable Ret o w Hr) in Hrun.
      cbn [run] in Hrun. discriminate Hrun.
    + destruct (Number_ buf) as [count|] eqn:Hn.
      * rewrite (generateShortURL_read Ret o w buf count H0 Hf Hn) in Hrun.
        destruct (o 1%nat); cbn [run] in Hrun; [|discriminate Hrun].
        injection Hrun as Hw Hc. split; [reflexivity|].
        exists buf, count. subst w' code. repeat split; assumption.
      * cbn [generateShortURL run] in Hrun. rewrite Hr, Hn in Hrun.
        cbn [run] in Hrun. discriminate Hrun.
  - intros buf count H0 Hf Hn H1.
    rewrite (generateShortURL_read Ret o w buf count H0 Hf Hn), H1.
    reflexivity.
Qed.

Lemma C6_code_only_after_persisted_increment_witness :
  (run (generateShortURL Ret) no_faults fresh =
     ({| count_file := Some "1"; shorturls := [] |}, Returned (Got "1")) /\
   no_faults 1%nat = NoFault /\
   exists buf count,
     count_file fresh = Some buf /\ Number_ buf = Some count /\
     "1" = encode count /\
     count_file {| count_file := Some "1"; shorturls := [] |} =
       Some (String_ (js_incr count))) /\
  (faults [NoFault; Fault] 1%nat = Fault /\
   run (generateShortURL Ret) (faults [NoFault; Fault]) fresh =
     (fresh, Returned (Failed FsError))).
Proof.
  split.
  - split; [reflexivity|].
    apply (proj1 (C6_code_only_after_persisted_increment no_faults fresh)
                 {| count_file := Some "1"; shorturls := [] |} "1").
    reflexivity.
  - split; [reflexivity|].
    apply (proj2 (C6_code_only_after_persisted_increment
                    (faults [NoFault; Fault]) fresh) "0" (JNat 0));
      reflexivity.
Defined.

(** C8, as the code has it: when [./count] cannot be read (the file is
    missing or the read fails), [generateShortURL] fails its caller without
    a code and without writing the counter. *)
Theorem C8_unreadable_counter_fails (o : oracle) (w : world) :
  o 0%nat = Fault \/ count_file w = None ->
  run (generateShortURL Ret) o w = (w, Returned (Failed FsError)).
Proof.
  intros H. rewrite generateShortURL_unreadable; [reflexivity|].
  unfold do_read. destruct H as [-> | ->]; [reflexivity|].
  destruct (o 0%nat); reflexivity.
Qed.

Lemma C8_unreadable_counter_fails_witness :
  (faults [Fault] 0%nat = Fault \/ count_file fresh = None) /\
  run (generateShortURL Ret) (faults [Fault]) fresh =
    (fresh, Returned (Failed FsError)).
Proof.
  split; [left; reflexivity|].
  apply (C8_unreadable_counter_fails (faults [Fault]) fresh).
  left. reflexivity.
Defined.

(** C8, as stated, fails for a counter that is readable but not numeric:
    the allocation goes through, hands out the code [undefined] and
    overwrites the counter with [NaN], after which every allocation hands
    out that same code. *)
Lemma C8_counterexample :
  let corrupted := {| count_file := Some "corrupt"; shorturls := [] |} in
  let after := {| count_file := Some "NaN"; shorturls := [] |} in
  Number_ "corrupt" = Some JNaN /\
  run (generateShortURL Ret) no_faults corrupted =
    (after, Returned (Got "undefined")) /\
  run (generateShortURL Ret) no_faults after =
    (after, Returned (Got "undefined")).
Proof. repeat split. Qed.

(** ** The handler of [GET /new/*] *)

(** C9: when the reachability check of a scheme-prefixed URL fails, the
    request is answered with the validation failure (404) and the store is
    left as it was: the counter file and the collection are unchanged. The
    probe is the only operation the request performs, so this holds for the
    request run alone and for its single turn in any interleaving. *)
Theorem C9_unreachable_url_changes_nothing
    (req : request) (o : oracle) (w : world) :
  has_scheme (substr_from 5 (path req)) = true ->
  o 0%nat = Fault ->
  run (new_handler req) o w = (w, Returned invalid_url) /\
  step Fault w (new_handler req) = (w, Ret invalid_url).
Proof.
  unfold has_scheme, new_handler. intros Hs Ho.
  destruct (String.eqb (substring 0 8 _) "https://");
    [| destruct (String.eqb (substring 0 7 _) "http://");
       [| discriminate Hs]];
    cbn [checkURL run step]; rewrite Ho; split; reflexivity.
Qed.

Lemma C9_unreachable_url_changes_nothing_witness :
  has_scheme (substr_from 5 (path example_com)) = true /\
  faults [Fault] 0%nat = Fault /\
  run (new_handler example_com) (faults [Fault]) fresh =
    (fresh, Returned invalid_url) /\
  step Fault fresh (new_handler example_com) = (fresh, Ret invalid_url).
Proof.
  split; [reflexivity|]. split; [reflexivity|].
  apply (C9_unreachable_url_changes_nothing example_com (faults [Fault]) fresh);
    reflexivity.
Defined.

Lemma handler_checks (req : request) :
  has_scheme (substr_from 5 (path req)) = true ->
  exists m,
    new_handler req =
    checkURL m (substr_from 5 (path req))
             (handler_cb req (substr_from 5 (path req))).
Proof.
  unfold has_scheme, new_handler. cbv zeta. intros Hs.
  destruct (String.eqb (substring 0 8 _) "https://"); [now exists https|].
  destruct (String.eqb (substring 0 7 _) "http://"); [now exists http|].
  discriminate Hs.
Qed.

(** A request whose probe, connect and query meet no fault answers from
    what the query finds. *)
Lemma handler_reaches_find (req : request) (o : oracle) (w : world) :
  has_scheme (substr_from 5 (path req)) = true ->
  o 0%nat = NoFault -> o 1%nat = NoFault -> o 2%nat = NoFault ->
  run (new_handler req) o w =
  run (on_found req (substr_from 5 (path req))
         (Got (find (same_url (substr_from 5 (path req))) (shorturls w))))
      (later (later (later o))) w.
Proof.
  intros Hs H0 H1 H2. destruct (handler_checks req Hs) as [m ->].
  cbn [checkURL run]. rewrite H0. cbn [do_get handler_cb findURL run].
  unfold later at 1. rewrite H1. cbn [do_connect run].
  unfold later at 1 2, do_find. rewrite H2.
  unfold same_url. destruct (find _ (shorturls w)); reflexivity.
Qed.

(** [addURL] with no fault on a readable counter: the document is appended
    and handed to the callback. *)
Lemma addURL_adds {A} (cb : reply doc -> task A) (url : string)
    (o : oracle) (w : world) (buf : string) (count : jsnum) :
  o 0%nat = NoFault -> o 1%nat = NoFault ->
  count_file w = Some buf -> Number_ buf = Some count ->
  o 2%nat = NoFault -> o 3%nat = NoFault ->
  let d := {| original_url := url; short_url := encode count |} in
  run (addURL url cb) o w =
  run (cb (Got d)) (later (later (later (later o))))
      {| count_file := Some (String_ (js_incr count));
         shorturls := shorturls w ++ [d] |}.
Proof.
  intros H0 H1 Hf Hn H2 H3 d. cbn [addURL run]. rewrite H0. cbn [do_connect].
  rewrite (generateShortURL_read _ (later o) w buf count H1 Hf Hn).
  change (later o 1%nat) with (o 2%nat). rewrite H2. cbn [run].
  change (later (later (later o)) 0%nat) with (o 3%nat). rewrite H3.
  reflexivity.
Qed.

Lemma url_count_app (url : string) (w : world) (d : doc) c :
  url_count url {| count_file := c; shorturls := shorturls w ++ [d] |} =
  (url_count url w + (if same_url url d then 1 else 0))%nat.
Proof.
  unfold url_count. cbn [shorturls]. rewrite filter_app, length_app.
  cbn [filter]. unfold same_url. destruct (String.eqb _ url); reflexivity.
Qed.

(** C3, as the code has it: [addURL] does not check for uniqueness. With
    no fault and a readable counter it appends a document pairing the URL
    with the newly generated code and returns that document, whether or
    not the collection already holds the URL: the number of documents for
    the URL grows by one and no conflict is reported. *)
Theorem C3_addURL_inserts_unconditionally
    (url : string) (w : world) (buf : string) (count : jsnum) :
  count_file w = Some buf -> Number_ buf = Some count ->
  let d := {| original_url := url; short_url := encode count |} in
  let w' := {| count_file := Some (String_ (js_incr count));
               shorturls := shorturls w ++ [d] |} in
  run (addURL url Ret) no_faults w = (w', Returned (Got d)) /\
  url_count url w' = S (url_count url w).
Proof.
  intros Hf Hn d w'. split.
  - unfold w', d.
    rewrite (addURL_adds Ret url no_faults w buf count); reflexivity || assumption.
  - unfold w'. rewrite url_count_app. unfold same_url, d. cbn [original_url].
    rewrite String.eqb_refl. lia.
Qed.

Lemma C3_addURL_inserts_unconditionally_witness :
  let w := {| count_file := Some "1";
              shorturls := [ {| original_url := "http://example.com";
                                short_url := "1" |} ] |} in
  let d := {| original_url := "http://example.com"; short_url := "2" |} in
  let w' := {| count_file := Some "2"; shorturls := shorturls w ++ [d] |} in
  (count_file w = Some "1" /\ Number_ "1" = Some (JNat 1)) /\
  run (addURL "http://example.com" Ret) no_faults w = (w', Returned (Got d)) /\
  url_count "http://example.com" w' = S (url_count "http://example.com" w).
Proof.
  split; [split; reflexivity|].
  apply (C3_addURL_inserts_unconditionally "http://example.com"
           {| count_file := Some "1";
              shorturls := [ {| original_url := "http://example.com";
                                short_url := "1" |} ] |}
           "1" (JNat 1)); reflexivity.
Defined.

(** C3, as stated, fails: on a collection that already holds a document
    for the URL, [addURL] reports no conflict; it succeeds and leaves two
    documents for the URL, with different codes. *)
Lemma C3_counterexample :
  let held := {| original_url := "http://example.com"; short_url := "1" |} in
  let added := {| original_url := "http://example.com"; short_url := "2" |} in
  let w := {| count_file := Some "1"; shorturls := [held] |} in
  find (same_url "http://example.com") (shorturls w) = Some held /\
  run (addURL "http://example.com" Ret) no_faults w =
    ({| count_file := Some "2"; shorturls := [held; added] |},
     Returned (Got added)).
Proof. split; reflexivity. Qed.

(** C7, as the code has it: when [./count] holds 0 and the collection is
    empty, the first shortened URL gets the code [generate 0], which is the
    first character of the alphabet, and 1 is persisted. *)
Theorem C7_first_code_from_zero (req : request) (w : world) (buf : string) :
  has_scheme (substr_from 5 (path req)) = true ->
  count_file w = Some buf -> Number_ buf = Some (JNat 0) ->
  shorturls w = [] ->
  let url := substr_from 5 (path req) in
  run (new_handler req) no_faults w =
    ({| count_file := Some "1";
        shorturls := [ {| original_url := url; short_url := generate 0 |} ] |},
     Returned (JsonDoc 200
       {| original_url := url;
          short_url := host req ++ "/" ++ generate 0 |})) /\
  Some (generate 0) = option_map (fun c => String c "") (hd_error urlChars).
Proof.
  intros Hs Hf Hn He url. split; [|reflexivity].
  rewrite (handler_reaches_find req no_faults w Hs eq_refl eq_refl eq_refl).
  rewrite He. cbn [find on_found].
  rewrite (addURL_adds (on_added req) _ _ w buf (JNat 0));
    try reflexivity; try assumption.
  rewrite He. reflexivity.
Qed.

Lemma C7_first_code_from_zero_witness :
  (has_scheme (substr_from 5 (path example_com)) = true /\
   count_file fresh = Some "0" /\ Number_ "0" = Some (JNat 0) /\
   shorturls fresh = []) /\
  run (new_handler example_com) no_faults fresh =
    ({| count_file := Some "1";
        shorturls := [ {| original_url := "http://example.com";
                          short_url := "1" |} ] |},
     Returned (JsonDoc 200
       {| original_url := "http://example.com"; short_url := "sho.rt/1" |})) /\
  Some "1" = option_map (fun c => String c "") (hd_error urlChars).
Proof.
  split; [repeat split|].
  apply (C7_first_code_from_zero example_com fresh "0"); reflexivity.
Defined.

(** C7, as stated, fails: on a first run with no [./count] file the
    counter does not start at 0; the read fails, the request is answered
    with an error, and no code is issued and no file is created. *)
Lemma C7_counterexample :
  let first_run := {| count_file := None; shorturls := [] |} in
  run (new_handler example_com) no_faults first_run =
    (first_run, Returned add_error) /\
  run (generateShortURL Ret) no_faults first_run =
    (first_run, Returned (Failed FsError)).
Proof. split; reflexivity. Qed.

Lemma find_app_miss {A} (f : A -> bool) (l : list A) (x : A) :
  find f l = None -> f x = true -> find f (l ++ [x]) = Some x.
Proof.
  induction l as [|y l IH]; cbn [app find]; intros Hm Hx.
  - now rewrite Hx.
  - destruct (f y); [discriminate Hm | now apply IH].
Qed.

Lemma find_miss_count (url : string) (w : world) :
  find (same_url url) (shorturls w) = None -> url_count url w = 0%nat.
Proof.
  unfold url_count. fold (same_url url).
  induction (shorturls w) as [|y l IH]; cbn [find filter]; [reflexivity|].
  destruct (same_url url y); [discriminate | exact IH].
Qed.

Lemma find_hit_count (url : string) (w : world) (d : doc) :
  find (same_url url) (shorturls w) = Some d -> (1 <= url_count url w)%nat.
Proof.
  unfold url_count. fold (same_url url).
  induction (shorturls w) as [|y l IH]; cbn [find filter]; [discriminate|].
  destruct (same_url url y); [cbn [List.length]; lia | exact IH].
Qed.

Lemma handler_without_scheme (req : request) :
  has_scheme (substr_from 5 (path req)) = false ->
  new_handler req = Ret missing_scheme.
Proof.
  unfold has_scheme, new_handler. cbv zeta. intros Hs.
  apply orb_false_iff in Hs. destruct Hs as [-> ->]. reflexivity.
Qed.

(** What a request that is answered with a document has done: it found
    the document of the URL, or it found none and appended one. Either way
    the query for the URL selects that document afterwards. *)
Lemma handler_success (req : request) (o : oracle) (w w1 : world)
    (st : N) (d : doc) :
  let url := substr_from 5 (path req) in
  run (new_handler req) o w = (w1, Returned (JsonDoc st d)) ->
  has_scheme url = true /\ st = 200 /\
  exists d0,
    d = absolute req d0 /\
    find (same_url url) (shorturls w1) = Some d0 /\
    (w1 = w \/
     (find (same_url url) (shorturls w) = None /\
      shorturls w1 = (shorturls w ++ [d0])%list)).
Proof.
  intros url Hrun.
  destruct (has_scheme url) eqn:Hs;
    [| rewrite (handler_without_scheme req Hs) in Hrun; discriminate Hrun].
  split; [reflexivity|].
  destruct (handler_checks req Hs) as [m Hm]. rewrite Hm in Hrun. clear Hm.
  fold url in Hrun. cbn [checkURL run] in Hrun.
  destruct (o 0%nat); cbn [do_get handler_cb findURL run] in Hrun;
    [|discriminate Hrun].
  destruct (later o 0%nat); cbn [do_connect run] in Hrun; [|discriminate Hrun].
  unfold do_find in Hrun. fold (same_url url) in Hrun.
  destruct (later (later o) 0%nat); [|discriminate Hrun].
  destruct (find (same_url url) (shorturls w)) as [d0|] eqn:Hfind.
  - cbn [on_found run] in Hrun. injection Hrun as Hw Hst Hd. subst w1 st d.
    split; [reflexivity|]. exists d0. auto.
  - cbn [on_found addURL run] in Hrun.
    destruct (later (later (later o)) 0%nat);
      cbn [do_connect on_added generateShortURL run] in Hrun;
      [|discriminate Hrun].
    destruct (do_read _ w) as [e|buf]; cbn [on_added run] in Hrun;
      [discriminate Hrun|].
    destruct (Number_ buf) as [count|]; cbn [run] in Hrun; [|discriminate Hrun].
    unfold do_write in Hrun.
    destruct (later (later (later (later (later o)))) 0%nat);
      cbn [on_added run] in Hrun; [|discriminate Hrun].
    unfold do_insert in Hrun.
    destruct (later (later (later (later (later (later o))))) 0%nat);
      cbn [on_added run shorturls count_file] in Hrun; [|discriminate Hrun].
    injection Hrun as Hw Hst Hd. subst w1 st d.
    split; [reflexivity|].
    exists {| original_url := url; short_url := encode count |}.
    cbn [shorturls]. split; [reflexivity|]. split.
    + apply find_app_miss; [exact Hfind|].
      unfold same_url. cbn [original_url]. apply String.eqb_refl.
    + right. split; reflexivity.
Qed.

(** C2, as the code has it: a request that is answered with a document,
    followed (with nothing in between) by a second request for the same
    URL whose probe, connect and query meet no fault, gets the same answer
    a second time, with the same short code; the second request changes
    nothing, and the collection holds exactly one document for the URL if
    it held none before the first request (and as many as before
    otherwise). *)
Theorem C2_sequential_requests_same_code
    (req : request) (o1 o2 : oracle) (w w1 : world) (d : doc) :
  let url := substr_from 5 (path req) in
  run (new_handler req) o1 w = (w1, Returned (JsonDoc 200 d)) ->
  o2 0%nat = NoFault -> o2 1%nat = NoFault -> o2 2%nat = NoFault ->
  run (new_handler req) o2 w1 = (w1, Returned (JsonDoc 200 d)) /\
  url_count url w1 = Nat.max 1 (url_count url w).
Proof.
  intros url Hrun H0 H1 H2.
  destruct (handler_success req o1 w w1 200 d Hrun)
    as (Hs & _ & d0 & Hd & Hfind & Hcase).
  fold url in Hs, Hfind, Hcase. split.
  - rewrite (handler_reaches_find req o2 w1 Hs H0 H1 H2). fold url.
    rewrite Hfind. cbn [on_found run]. now rewrite Hd.
  - destruct Hcase as [-> | [Hmiss Happ]].
    + pose proof (find_hit_count url w d0 Hfind). lia.
    + rewrite (find_miss_count url w Hmiss).
      destruct (find_some _ _ Hfind) as [_ Hsame].
      unfold url_count. fold (same_url url). rewrite Happ.
      rewrite filter_app, length_app. cbn [filter]. rewrite Hsame.
      fold (same_url url) in Hmiss.
      pose proof (find_miss_count url w Hmiss) as Hz.
      unfold url_count in Hz. fold (same_url url) in Hz. rewrite Hz.
      reflexivity.
Qed.

Lemma C2_sequential_requests_same_code_witness :
  let w1 := {| count_file := Some "1";
               shorturls := [ {| original_url := "http://example.com";
                                 short_url := "1" |} ] |} in
  let d := {| original_url := "http://example.com";
              short_url := "sho.rt/1" |} in
  run (new_handler example_com) no_faults fresh = (w1, Returned (JsonDoc 200 d)) /\
  run (new_handler example_com) no_faults w1 = (w1, Returned (JsonDoc 200 d)) /\
  url_count "http://example.com" w1 = Nat.max 1 (url_count "http://example.com" fresh).
Proof.
  split; [reflexivity|].
  apply (C2_sequential_requests_same_code example_com no_faults no_faults fresh);
    reflexivity.
Defined.

(** C2, as stated, fails for concurrent requests: when both requests for
    one URL query the collection before either inserts, both find nothing
    and both insert. The callers get different short codes and the
    collection holds two documents for the URL; no conflict is detected and
    nothing is fetched again. *)
Lemma C2_counterexample :
  let s := schedule
             {| store := fresh;
                threads := [new_handler example_com; new_handler example_com] |}
             [(0, NoFault); (1, NoFault);      (* both probes *)
              (0, NoFault); (1, NoFault);      (* both connects of findURL *)
              (0, NoFault); (1, NoFault);      (* both queries: no document *)
              (0, NoFault); (0, NoFault); (0, NoFault); (0, NoFault);
              (1, NoFault); (1, NoFault); (1, NoFault); (1, NoFault)]%nat in
  threads s =
    [Ret (JsonDoc 200 {| original_url := "http://example.com";
                         short_url := "sho.rt/1" |});
     Ret (JsonDoc 200 {| original_url := "http://example.com";
                         short_url := "sho.rt/2" |})] /\
  shorturls (store s) =
    [ {| original_url := "http://example.com"; short_url := "1" |};
      {| original_url := "http://example.com"; short_url := "2" |} ] /\
  url_count "http://example.com" (store s) = 2%nat.
Proof. repeat split. Qed.

(** * Further properties *)

(** ** Codes *)

Lemma quotient_smaller (n : N) : asciiRange <= n -> n / asciiRange < n.
Proof. rewrite asciiRange_eq. intros H. apply N.div_lt; lia. Qed.

Lemma alphabet_char_in (i : N) : i < asciiRange -> In (alphabet_char i) urlChars.
Proof.
  intros Hi. unfold alphabet_char. apply nth_In.
  unfold asciiRange in Hi. lia.
Qed.

(** X1: every character of a generated code is a character of the
    alphabet; for an integer counter the loop never reads past the end of
    [urlChars]. *)
Theorem X1_code_over_alphabet (n : N) :
  Forall (fun c => In c urlChars) (list_ascii_of_string (generate n)).
Proof.
  induction n as [n IH] using (well_founded_induction N.lt_wf_0).
  rewrite generate_rec. destruct (n <? asciiRange) eqn:E.
  - apply N.ltb_lt in E. cbn [list_ascii_of_string].
    constructor; [now apply alphabet_char_in | constructor].
  - apply N.ltb_ge in E. rewrite list_of_append. apply Forall_app. split.
    + apply IH, quotient_smaller, E.
    + cbn [list_ascii_of_string].
      constructor; [apply alphabet_char_in, digit_in_range | constructor].
Qed.

(** X2: for counter values up to [2^53] the length of the code is the
    number of base-A digits of the value: the values from [A^k] to
    [A^(k+1) - 1] that the counter can hold get codes of [k+1]
    characters, for every [k]. *)
Theorem X2_code_length_is_digit_count (k : nat) (n : N) :
  asciiRange ^ N.of_nat k <= n < asciiRange ^ N.of_nat (S k) ->
  n <= MAX_EXACT ->
  exists s, generate_double n = Some s /\ String.length s = S k.
Proof.
  intros [Hlow Hup] Hn. exists (generate n). split.
  - now apply generate_double_exact.
  - apply generate_length; [exact Hup | right; exact Hlow].
Qed.

Lemma X2_code_length_is_digit_count_witness :
  (asciiRange ^ N.of_nat 2 <= 500000 < asciiRange ^ N.of_nat 3 /\
   500000 <= MAX_EXACT) /\
  exists s, generate_double 500000 = Some s /\ String.length s = 3%nat.
Proof.
  split; [split; [split; [discriminate | reflexivity] | discriminate]|].
  apply (X2_code_length_is_digit_count 2 500000);
    [split; [discriminate | reflexivity] | discriminate].
Defined.

(** X3: the code of a positive value does not begin with the character of
    digit 0 (the character [1] of the alphabet): only the value 0 has a code
    that starts with it. *)
Theorem X3_no_leading_zero_digit (n : N) :
  0 < n ->
  exists c rest, generate n = String c rest /\ c <> alphabet_char 0.
Proof.
  induction n as [n IH] using (well_founded_induction N.lt_wf_0).
  intros Hpos. rewrite generate_rec. destruct (n <? asciiRange) eqn:E.
  - apply N.ltb_lt in E. exists (alphabet_char n), "". split; [reflexivity|].
    intros Heq.
    assert (index_in (alphabet_char n) urlChars = index_in (alphabet_char 0) urlChars)
      as Hi by now rewrite Heq.
    rewrite (index_in_alphabet n E) in Hi.
    rewrite (index_in_alphabet 0) in Hi by (rewrite asciiRange_eq; reflexivity).
    lia.
  - apply N.ltb_ge in E.
    destruct (IH (n / asciiRange)) as (c & rest & Hg & Hc).
    + apply quotient_smaller, E.
    + apply N.div_str_pos. rewrite asciiRange_eq in *. lia.
    + rewrite Hg. exists c. eexists. split; [reflexivity | exact Hc].
Qed.

Lemma X3_no_leading_zero_digit_witness :
  0 < 83 /\
  exists c rest, generate 83 = String c rest /\ c <> alphabet_char 0.
Proof.
  split; [reflexivity|]. apply (X3_no_leading_zero_digit 83). reflexivity.
Defined.

(** ** What [./count] is read as *)

Lemma space_not_foreign (c : ascii) : is_space c = true -> is_foreign c = false.
Proof.
  intros H. unfold is_foreign. rewrite H. cbn [negb].
  now rewrite andb_false_r.
Qed.

Lemma drop_spaces_app (ws l : list ascii) :
  forallb is_space ws = true -> drop_spaces (ws ++ l) = drop_spaces l.
Proof.
  induction ws as [|c ws IH]; cbn [forallb app drop_spaces]; [reflexivity|].
  intros H. apply andb_true_iff in H. destruct H as [Hc Hws].
  rewrite Hc. now apply IH.
Qed.

Lemma drop_spaces_blank (ws : list ascii) :
  forallb is_space ws = true -> drop_spaces ws = [].
Proof.
  intros H. rewrite <- (app_nil_r ws). now rewrite drop_spaces_app.
Qed.

Lemma forallb_rev {A} (f : A -> bool) (l : list A) :
  forallb f l = true -> forallb f (rev l) = true.
Proof.
  rewrite !forallb_forall. intros H x Hx. apply H, in_rev, Hx.
Qed.

(** White space around a run of digits is trimmed away. *)
Lemma trim_padded (ws1 ds ws2 : list ascii) :
  forallb is_space ws1 = true -> forallb is_space ws2 = true ->
  Forall (fun c => is_digit c = true) ds ->
  trim (ws1 ++ ds ++ ws2) = ds.
Proof.
  intros H1 H2 Hd. unfold trim. rewrite (drop_spaces_app ws1 _ H1).
  destruct Hd as [|d ds Hd Hds].
  - cbn [app]. rewrite (drop_spaces_blank ws2 H2). reflexivity.
  - cbn [app drop_spaces]. rewrite (digit_not_space d Hd).
    change (d :: ds ++ ws2)%list with ((d :: ds) ++ ws2)%list. rewrite rev_app_distr.
    rewrite (drop_spaces_app (rev ws2)) by now apply forallb_rev.
    rewrite drop_spaces_digits by (apply Forall_rev; now constructor).
    apply rev_involutive.
Qed.

Lemma no_foreign_padded (ws1 ds ws2 : list ascii) :
  forallb is_space ws1 = true -> forallb is_space ws2 = true ->
  Forall (fun c => is_digit c = true) ds ->
  existsb is_foreign (ws1 ++ ds ++ ws2) = false.
Proof.
  assert (forall ws, forallb is_space ws = true -> existsb is_foreign ws = false)
    as Hws.
  { induction ws as [|c ws IH]; cbn [forallb existsb]; [reflexivity|].
    intros H. apply andb_true_iff in H. destruct H as [Hc H].
    now rewrite (space_not_foreign c Hc), IH. }
  intros H1 H2 Hd. rewrite !existsb_app.
  now rewrite (Hws ws1 H1), (Hws ws2 H2), (no_foreign_digits ds Hd).
Qed.

(** The decimal text of an integer up to [2^53] is read as that integer
    whatever white space surrounds it. *)
Lemma Number_padded (pre post : string) (n : N) :
  blank pre = true -> blank post = true -> n <= MAX_EXACT ->
  Number_ (pre ++ String_ (JNat n) ++ post) = Some (JNat n).
Proof.
  unfold blank. intros H1 H2 Hn. unfold Number_, String_. cbv zeta.
  rewrite !list_of_append.
  pose proof (uint_digits (N.to_uint n)) as Hd.
  rewrite (no_foreign_padded _ _ _ H1 H2 Hd), (trim_padded _ _ _ H1 H2 Hd).
  rewrite string_of_list_ascii_of_string, NilEmpty.usu.
  rewrite DecimalN.Unsigned.of_to.
  apply N.leb_le in Hn. now rewrite Hn.
Qed.

Lemma Number_blank (buf : string) :
  blank buf = true -> Number_ buf = Some (JNat 0).
Proof.
  unfold blank. intros H. unfold Number_. cbv zeta.
  rewrite <- (app_nil_r (list_ascii_of_string buf)) at 1.
  change (@nil ascii) with (@nil ascii ++ @nil ascii)%list at 1.
  rewrite (no_foreign_padded _ [] [] H eq_refl) by constructor.
  unfold trim. rewrite (drop_spaces_blank _ H). reflexivity.
Qed.

(** X4: a counter file that is empty or holds white space only is read as
    0: the allocation does not fail, it hands out the code of 0 (the
    character [1]) and persists 1. *)
Theorem X4_blank_counter_restarts_at_zero (w : world) (buf : string) :
  count_file w = Some buf -> blank buf = true ->
  run (generateShortURL Ret) no_faults w =
  ({| count_file := Some "1"; shorturls := shorturls w |},
   Returned (Got "1")).
Proof.
  intros Hf Hb.
  rewrite (next_value w buf 0 Hf (Number_blank buf Hb)); reflexivity.
Qed.

Lemma X4_blank_counter_restarts_at_zero_witness :
  let w := {| count_file := Some (String "010" "");
              shorturls := [ {| original_url := "http://example.com";
                                short_url := "1" |} ] |} in
  (count_file w = Some (String "010" "") /\ blank (String "010" "") = true) /\
  run (generateShortURL Ret) no_faults w =
  ({| count_file := Some "1"; shorturls := shorturls w |},
   Returned (Got "1")).
Proof.
  split; [split; reflexivity|].
  apply (X4_blank_counter_restarts_at_zero
           {| count_file := Some (String "010" "");
              shorturls := [ {| original_url := "http://example.com";
                                short_url := "1" |} ] |}
           (String "010" "")); reflexivity.
Defined.

(** X5: white space around the digits in [./count] (a final newline, say)
    does not matter: the allocation hands out the code of the integer and
    persists its successor, written without the padding. *)
Theorem X5_padded_counter_is_read (w : world) (pre post : string) (n : N) :
  count_file w = Some (pre ++ String_ (JNat n) ++ post) ->
  blank pre = true -> blank post = true -> n < MAX_EXACT ->
  run (generateShortURL Ret) no_faults w =
  ({| count_file := Some (String_ (JNat (n + 1))); shorturls := shorturls w |},
   Returned (Got (generate n))).
Proof.
  intros Hf H1 H2 Hn.
  apply (next_value w _ n Hf); [|exact Hn].
  apply Number_padded; [exact H1 | exact H2 | lia].
Qed.

Lemma X5_padded_counter_is_read_witness :
  let w := {| count_file := Some (" 41" ++ String "010" ""); shorturls := [] |} in
  (count_file w = Some (" " ++ String_ (JNat 41) ++ String "010" "") /\
   blank " " = true /\ blank (String "010" "") = true /\ 41 < MAX_EXACT) /\
  run (generateShortURL Ret) no_faults w =
  ({| count_file := Some (String_ (JNat (41 + 1))); shorturls := shorturls w |},
   Returned (Got (generate 41))).
Proof.
  split; [repeat split|].
  apply (X5_padded_counter_is_read
           {| count_file := Some (" 41" ++ String "010" ""); shorturls := [] |}
           " " (String "010" "") 41); reflexivity.
Defined.

(** An invocation run alone, with no fault, on any counter value. *)
Lemma next_code (w : world) (buf : string) (count : jsnum) :
  count_file w = Some buf -> Number_ buf = Some count ->
  run (generateShortURL Ret) no_faults w =
  ({| count_file := Some (String_ (js_incr count)); shorturls := shorturls w |},
   Returned (Got (encode count))).
Proof.
  intros Hf Hn.
  rewrite (generateShortURL_read Ret no_faults w buf count eq_refl Hf Hn).
  reflexivity.
Qed.

(** X6: a counter that reads as [NaN] stays so: every later allocation,
    one after the other, succeeds with the code [undefined] and leaves the
    text [NaN] in the file. The counter never recovers by itself. *)
Theorem X6_NaN_counter_is_absorbing (k : nat) (w : world) (buf : string) :
  count_file w = Some buf -> Number_ buf = Some JNaN ->
  sequential_calls (S k) w =
  ({| count_file := Some "NaN"; shorturls := shorturls w |},
   repeat (Returned (Got "undefined")) (S k)).
Proof.
  revert w buf. induction k as [|k IH]; intros w buf Hf Hn.
  - cbn [sequential_calls]. rewrite (next_code w buf JNaN Hf Hn). reflexivity.
  - remember (S k) as k' eqn:Ek. cbn [sequential_calls].
    rewrite (next_code w buf JNaN Hf Hn). subst k'.
    cbn [js_incr String_ encode].
    rewrite (IH {| count_file := Some "NaN"; shorturls := shorturls w |} "NaN"
                eq_refl eq_refl).
    reflexivity.
Qed.

Lemma X6_NaN_counter_is_absorbing_witness :
  let w := {| count_file := Some "corrupt"; shorturls := [] |} in
  (count_file w = Some "corrupt" /\ Number_ "corrupt" = Some JNaN) /\
  sequential_calls 3 w =
  ({| count_file := Some "NaN"; shorturls := shorturls w |},
   repeat (Returned (Got "undefined")) 3).
Proof.
  split; [split; reflexivity|].
  apply (X6_NaN_counter_is_absorbing 2
           {| count_file := Some "corrupt"; shorturls := [] |} "corrupt");
    reflexivity.
Defined.

(** X7: the counter stops at [2^53]. [count++] on that value gives the
    same value back, so the file keeps reading as [2^53] and two
    allocations in a row hand out the same code. The bound of C1 is
    sharp. *)
Theorem X7_counter_stops_at_2_53 (w : world) (buf : string) :
  count_file w = Some buf -> Number_ buf = Some (JNat MAX_EXACT) ->
  exists w',
    sequential_calls 2 w =
      (w', [Returned (Got (generate MAX_EXACT));
            Returned (Got (generate MAX_EXACT))]) /\
    counter_is MAX_EXACT w' /\ shorturls w' = shorturls w.
Proof.
  intros Hf Hn.
  assert (js_incr (JNat MAX_EXACT) = JNat MAX_EXACT) as Hi.
  { unfold js_incr. now rewrite N.ltb_irrefl. }
  assert (Number_ (String_ (JNat MAX_EXACT)) = Some (JNat MAX_EXACT)) as Hs.
  { apply Number_String. apply N.le_refl. }
  exists {| count_file := Some (String_ (JNat MAX_EXACT));
            shorturls := shorturls w |}.
  split; [|split; [exists (String_ (JNat MAX_EXACT)); split; [reflexivity|exact Hs]
                  | reflexivity]].
  cbn [sequential_calls].
  rewrite (next_code w buf (JNat MAX_EXACT) Hf Hn), Hi.
  rewrite (next_code {| count_file := Some (String_ (JNat MAX_EXACT));
                        shorturls := shorturls w |}
                     (String_ (JNat MAX_EXACT)) (JNat MAX_EXACT) eq_refl Hs), Hi.
  reflexivity.
Qed.

Lemma X7_counter_stops_at_2_53_witness :
  let w := {| count_file := Some "9007199254740992"; shorturls := [] |} in
  (count_file w = Some "9007199254740992" /\
   Number_ "9007199254740992" = Some (JNat MAX_EXACT)) /\
  exists w',
    sequential_calls 2 w =
      (w', [Returned (Got (generate MAX_EXACT));
            Returned (Got (generate MAX_EXACT))]) /\
    counter_is MAX_EXACT w' /\ shorturls w' = shorturls w.
Proof.
  split; [split; reflexivity|].
  apply (X7_counter_stops_at_2_53
           {| count_file := Some "9007199254740992"; shorturls := [] |}
           "9007199254740992"); reflexivity.
Defined.

(** ** [addURL] *)

(** X8: when [addURL] reports an error to its caller, the collection is as
    it was before: no document was inserted. *)
Theorem X8_addURL_error_inserts_nothing
    (url : string) (o : oracle) (w w' : world) (e : error) :
  run (addURL url Ret) o w = (w', Returned (Failed e)) ->
  shorturls w' = shorturls w.
Proof.
  intros Hrun. cbn [addURL run] in Hrun.
  destruct (o 0%nat); cbn [do_connect generateShortURL run] in Hrun;
    [| now injection Hrun as <- _].
  destruct (do_read _ w) as [e'|buf]; cbn [run] in Hrun;
    [now injection Hrun as <- _|].
  destruct (Number_ buf) as [count|]; cbn [run] in Hrun; [|discriminate Hrun].
  unfold do_write in Hrun.
  destruct (later (later o) 0%nat); cbn [run] in Hrun;
    [| now injection Hrun as <- _].
  unfold do_insert in Hrun.
  destruct (later (later (later o)) 0%nat); cbn [run] in Hrun;
    [discriminate Hrun|].
  now injection Hrun as <- _.
Qed.

Lemma X8_addURL_error_inserts_nothing_witness :
  let o := faults [NoFault; NoFault; NoFault; Fault] in
  let w' := {| count_file := Some "1"; shorturls := [] |} in
  run (addURL "http://example.com" Ret) o fresh = (w', Returned (Failed MongoError)) /\
  shorturls w' = shorturls fresh.
Proof.
  split; [reflexivity|].
  apply (X8_addURL_error_inserts_nothing "http://example.com"
           (faults [NoFault; NoFault; NoFault; Fault]) fresh
           {| count_file := Some "1"; shorturls := [] |} MongoError).
  reflexivity.
Defined.

(** X9: a failed insert uses a counter value up. [addURL] has written the
    incremented count before it inserts, so when the insert fails the code
    of [n] is stored for no URL and the next [addURL] takes the code of
    [n+1]. *)
Theorem X9_failed_insert_skips_a_code
    (url next : string) (o : oracle) (w : world) (buf : string) (n : N) :
  count_file w = Some buf -> Number_ buf = Some (JNat n) -> n < MAX_EXACT ->
  o 0%nat = NoFault -> o 1%nat = NoFault -> o 2%nat = NoFault ->
  o 3%nat = Fault ->
  let w1 := {| count_file := Some (String_ (JNat (n + 1)));
               shorturls := shorturls w |} in
  run (addURL url Ret) o w = (w1, Returned (Failed MongoError)) /\
  snd (run (addURL next Ret) no_faults w1) =
    Returned (Got {| original_url := next; short_url := generate (n + 1) |}).
Proof.
  intros Hf Hn Hlt H0 H1 H2 H3 w1. split.
  - cbn [addURL run]. rewrite H0. cbn [do_connect].
    rewrite (generateShortURL_read _ (later o) w buf (JNat n) H1 Hf Hn).
    change (later o 1%nat) with (o 2%nat). rewrite H2. cbn [run].
    change (later (later (later o)) 0%nat) with (o 3%nat). rewrite H3.
    cbn [do_insert run js_incr]. apply N.ltb_lt in Hlt. rewrite Hlt.
    reflexivity.
  - rewrite (addURL_adds Ret next no_faults w1 (String_ (JNat (n + 1)))
               (JNat (n + 1))); try reflexivity.
    apply Number_String. lia.
Qed.

Lemma X9_failed_insert_skips_a_code_witness :
  let o := faults [NoFault; NoFault; NoFault; Fault] in
  let w1 := {| count_file := Some (String_ (JNat (0 + 1)));
               shorturls := shorturls fresh |} in
  (count_file fresh = Some "0" /\ Number_ "0" = Some (JNat 0) /\
   0 < MAX_EXACT /\ o 3%nat = Fault) /\
  run (addURL "http://example.com" Ret) o fresh =
    (w1, Returned (Failed MongoError)) /\
  snd (run (addURL "https://example.org" Ret) no_faults w1) =
    Returned (Got {| original_url := "https://example.org";
                     short_url := generate (0 + 1) |}).
Proof.
  split; [repeat split|].
  apply (X9_failed_insert_skips_a_code "http://example.com"
           "https://example.org"
           (faults [NoFault; NoFault; NoFault; Fault]) fresh "0" 0);
    reflexivity.
Defined.

(** ** The handler of [GET /new/*], continued *)

(** What a request run alone can do to the store: nothing; or, when the
    URL is not stored yet and the counter was read and written, advance the
    counter and then fail to insert, or advance it and append the
    document it answers with. *)
Lemma handler_effect (req : request) (o : oracle) (w : world) :
  let url := substr_from 5 (path req) in
  let w' := fst (run (new_handler req) o w) in
  let r := snd (run (new_handler req) o w) in
  w' = w \/
  (find (same_url url) (shorturls w) = None /\
   exists buf count,
     count_file w = Some buf /\ Number_ buf = Some count /\
     o 5%nat = NoFault /\
     let d := {| original_url := url; short_url := encode count |} in
     ((w' = {| count_file := Some (String_ (js_incr count));
               shorturls := shorturls w |} /\
       r = Returned add_error) \/
      (w' = {| count_file := Some (String_ (js_incr count));
               shorturls := shorturls w ++ [d] |} /\
       r = Returned (JsonDoc 200 (absolute req d))))).
Proof.
  intros url w' r. subst w' r.
  destruct (has_scheme url) eqn:Hs;
    [| rewrite (handler_without_scheme req Hs); left; reflexivity].
  destruct (handler_checks req Hs) as [m ->]. fold url.
  cbn [checkURL run].
  destruct (o 0%nat); cbn [do_get handler_cb findURL run];
    [|left; reflexivity].
  destruct (later o 0%nat); cbn [do_connect run]; [|left; reflexivity].
  unfold do_find.
  destruct (later (later o) 0%nat); [|left; reflexivity].
  destruct (find (same_url url) (shorturls w)) as [d0|] eqn:Hfind;
    cbn [on_found run]; [left; reflexivity|].
  cbn [addURL run].
  destruct (later (later (later o)) 0%nat);
    cbn [do_connect on_added generateShortURL run]; [|left; reflexivity].
  unfold do_read.
  destruct (later (later (later (later o))) 0%nat);
    [|cbn [on_added run]; left; reflexivity].
  destruct (count_file w) as [buf|] eqn:Hf;
    [|cbn [on_added run]; left; reflexivity].
  destruct (Number_ buf) as [count|] eqn:Hn; cbn [run]; [|left; reflexivity].
  unfold do_write.
  destruct (later (later (later (later (later o)))) 0%nat) eqn:H5;
    cbn [on_added run]; [|left; reflexivity].
  right. split; [reflexivity|]. exists buf, count.
  split; [reflexivity|]. split; [exact Hn|]. split; [exact H5|].
  cbv zeta. unfold do_insert.
  destruct (later (later (later (later (later (later o))))) 0%nat);
    cbn [on_added run fst snd shorturls count_file].
  - right. split; reflexivity.
  - left. split; reflexivity.
Qed.

(** X10: a request for a URL that is already stored leaves the store as
    it is whatever faults it meets: no counter value is used and nothing
    is inserted. When its probe, connect and query succeed, it answers
    with the stored document, the host put before the code. *)
Theorem X10_stored_url_uses_no_counter
    (req : request) (o : oracle) (w : world) (d0 : doc) :
  let url := substr_from 5 (path req) in
  has_scheme url = true ->
  find (same_url url) (shorturls w) = Some d0 ->
  fst (run (new_handler req) o w) = w /\
  (o 0%nat = NoFault -> o 1%nat = NoFault -> o 2%nat = NoFault ->
   snd (run (new_handler req) o w) = Returned (JsonDoc 200 (absolute req d0))).
Proof.
  intros url Hs Hfind. split.
  - destruct (handler_effect req o w) as [H | [Hmiss _]]; [exact H|].
    fold url in Hmiss. rewrite Hfind in Hmiss. discriminate Hmiss.
  - intros H0 H1 H2.
    rewrite (handler_reaches_find req o w Hs H0 H1 H2). fold url.
    rewrite Hfind. reflexivity.
Qed.

Lemma X10_stored_url_uses_no_counter_witness :
  let w := {| count_file := Some "1";
              shorturls := [ {| original_url := "http://example.com";
                                short_url := "1" |} ] |} in
  let d0 := {| original_url := "http://example.com"; short_url := "1" |} in
  (has_scheme (substr_from 5 (path example_com)) = true /\
   find (same_url (substr_from 5 (path example_com))) (shorturls w) = Some d0) /\
  fst (run (new_handler example_com) no_faults w) = w /\
  (no_faults 0%nat = NoFault -> no_faults 1%nat = NoFault ->
   no_faults 2%nat = NoFault ->
   snd (run (new_handler example_com) no_faults w) =
     Returned (JsonDoc 200 (absolute example_com d0))).
Proof.
  split; [split; reflexivity|].
  apply (X10_stored_url_uses_no_counter example_com no_faults
           {| count_file := Some "1";
              shorturls := [ {| original_url := "http://example.com";
                                short_url := "1" |} ] |}
           {| original_url := "http://example.com"; short_url := "1" |});
    reflexivity.
Defined.

(** X11: a request, whatever faults it meets, only ever appends to the
    collection, and at most one document: the documents stored before are
    still there, unchanged and in the same order. A document is appended
    only for the requested URL and only when the query found none for
    it. *)
Theorem X11_request_appends_at_most_one
    (req : request) (o : oracle) (w : world) :
  let url := substr_from 5 (path req) in
  let w' := fst (run (new_handler req) o w) in
  shorturls w' = shorturls w \/
  exists code,
    shorturls w' =
      (shorturls w ++ [ {| original_url := url; short_url := code |} ])%list /\
    find (same_url url) (shorturls w) = None.
Proof.
  intros url w'.
  destruct (handler_effect req o w)
    as [H | (Hmiss & buf & count & _ & _ & _ & [[H _] | [H _]])];
    fold w' in H.
  - left. now rewrite H.
  - left. now rewrite H.
  - right. exists (encode count). rewrite H. split; [reflexivity | exact Hmiss].
Qed.

Lemma substring_whole (s : string) : substring 0 (String.length s) s = s.
Proof. induction s as [|c s IH]; cbn; [reflexivity | now rewrite IH]. Qed.

(** The handler takes the URL from the path as it is, after [/new/]. *)
Lemma url_of_path (u : string) : substr_from 5 ("/new/" ++ u) = u.
Proof.
  unfold substr_from. cbn [append String.length Nat.sub substring].
  rewrite Nat.sub_0_r. apply substring_whole.
Qed.

(** X12: the handler works on [req.path]. When [req.path] is [/new/]
    followed by [u] and the request is answered with a document, the answer
    has [u] itself as [original_url], character for character, and as
    [short_url] the host, a slash and the code of a document that the
    collection now holds for [u]. [req.path] is the request URL without its
    query string: what followed a [?] in the request is not in [u]. *)
Theorem X12_answer_carries_path_remainder
    (req : request) (u : string) (o : oracle) (w w' : world)
    (st : N) (d : doc) :
  path req = "/new/" ++ u ->
  run (new_handler req) o w = (w', Returned (JsonDoc st d)) ->
  original_url d = u /\
  exists d0,
    In d0 (shorturls w') /\ original_url d0 = u /\
    short_url d = host req ++ "/" ++ short_url d0.
Proof.
  intros Hp Hrun.
  destruct (handler_success req o w w' st d Hrun)
    as (_ & _ & d0 & Hd & Hfind & _).
  rewrite Hp, url_of_path in Hfind.
  destruct (find_some _ _ Hfind) as [Hin Hsame].
  unfold same_url in Hsame. apply String.eqb_eq in Hsame.
  subst d. cbn [absolute original_url short_url].
  split; [exact Hsame|]. exists d0. auto.
Qed.

Lemma X12_answer_carries_path_remainder_witness :
  let w' := {| count_file := Some "1";
               shorturls := [ {| original_url := "http://example.com";
                                 short_url := "1" |} ] |} in
  let d := {| original_url := "http://example.com";
              short_url := "sho.rt/1" |} in
  (path example_com = "/new/" ++ "http://example.com" /\
   run (new_handler example_com) no_faults fresh = (w', Returned (JsonDoc 200 d))) /\
  original_url d = "http://example.com" /\
  exists d0,
    In d0 (shorturls w') /\ original_url d0 = "http://example.com" /\
    short_url d = host example_com ++ "/" ++ short_url d0.
Proof.
  split; [split; reflexivity|].
  apply (X12_answer_carries_path_remainder example_com "http://example.com"
           no_faults fresh
           {| count_file := Some "1";
              shorturls := [ {| original_url := "http://example.com";
                                short_url := "1" |} ] |} 200);
    reflexivity.
Defined.

(** X13: a request for a URL that is not stored yet, with no fault and a
    counter that reads as [n] below [2^53], stores the URL with the code
    of [n] at the end of the collection, persists [n+1] and answers 200
    with the URL and the host, a slash and that code. *)
Theorem X13_new_url_gets_code_of_counter
    (req : request) (w : world) (buf : string) (n : N) :
  let url := substr_from 5 (path req) in
  has_scheme url = true ->
  find (same_url url) (shorturls w) = None ->
  count_file w = Some buf -> Number_ buf = Some (JNat n) -> n < MAX_EXACT ->
  run (new_handler req) no_faults w =
  ({| count_file := Some (String_ (JNat (n + 1)));
      shorturls := shorturls w ++
                   [ {| original_url := url; short_url := generate n |} ] |},
   Returned (JsonDoc 200
     {| original_url := url; short_url := host req ++ "/" ++ generate n |})).
Proof.
  intros url Hs Hmiss Hf Hn Hlt.
  rewrite (handler_reaches_find req no_faults w Hs eq_refl eq_refl eq_refl).
  fold url. rewrite Hmiss. cbn [on_found].
  rewrite (addURL_adds (on_added req) url _ w buf (JNat n));
    try reflexivity; try assumption.
  cbn [js_incr]. apply N.ltb_lt in Hlt. rewrite Hlt. reflexivity.
Qed.

Lemma X13_new_url_gets_code_of_counter_witness :
  let w := {| count_file := Some "83";
              shorturls := [ {| original_url := "http://example.com";
                                short_url := "1" |} ] |} in
  (has_scheme (substr_from 5 (path example_org)) = true /\
   find (same_url (substr_from 5 (path example_org))) (shorturls w) = None /\
   count_file w = Some "83" /\ Number_ "83" = Some (JNat 83) /\
   83 < MAX_EXACT) /\
  run (new_handler example_org) no_faults w =
  ({| count_file := Some (String_ (JNat (83 + 1)));
      shorturls := shorturls w ++
                   [ {| original_url := substr_from 5 (path example_org);
                        short_url := generate 83 |} ] |},
   Returned (JsonDoc 200
     {| original_url := substr_from 5 (path example_org);
        short_url := host example_org ++ "/" ++ generate 83 |})).
Proof.
  split; [repeat split|].
  apply (X13_new_url_gets_code_of_counter example_org
           {| count_file := Some "83";
              shorturls := [ {| original_url := "http://example.com";
                                short_url := "1" |} ] |} "83" 83);
    reflexivity.
Defined.

(** ** Uniqueness of URLs and codes under sequential use *)

Lemma generate_inj (i j : N) : generate i = generate j -> i = j.
Proof.
  intros H. rewrite <- (decode_generate i), <- (decode_generate j), H.
  reflexivity.
Qed.

Lemma find_miss_not_stored (url : string) (l : list doc) :
  find (same_url url) l = None -> ~ In url (map original_url l).
Proof.
  intros Hmiss Hin. apply in_map_iff in Hin. destruct Hin as (d & Hd & Hin).
  pose proof (find_none _ _ Hmiss d Hin) as Hf. unfold same_url in Hf.
  rewrite Hd, String.eqb_refl in Hf. discriminate Hf.
Qed.

Lemma NoDup_snoc {A} (l : list A) (x : A) :
  NoDup l -> ~ In x l -> NoDup (l ++ [x]).
Proof.
  intros Hl Hx. apply NoDup_app; [exact Hl | repeat constructor; intros [] |].
  intros a Ha [<- | []]. exact (Hx Ha).
Qed.

Lemma well_formed_advance (n : N) (w : world) :
  well_formed n w -> n < MAX_EXACT ->
  well_formed (n + 1)
    {| count_file := Some (String_ (JNat (n + 1))); shorturls := shorturls w |}.
Proof.
  intros (_ & Hu & Hc & Hi) Hlt. repeat split; cbn [shorturls].
  - exists (String_ (JNat (n + 1))). split; [reflexivity|].
    apply Number_String. lia.
  - exact Hu.
  - exact Hc.
  - apply (Forall_impl _ (P := fun d => exists i, i < n /\ short_url d = generate i));
      [|exact Hi].
    intros d (i & Hlt' & Hd). exists i. split; [lia | exact Hd].
Qed.

Lemma well_formed_append (n : N) (w : world) (c : option string) (url : string) :
  well_formed (n + 1) {| count_file := c; shorturls := shorturls w |} ->
  Forall (fun d => exists i, i < n /\ short_url d = generate i) (shorturls w) ->
  find (same_url url) (shorturls w) = None ->
  well_formed (n + 1)
    {| count_file := c;
       shorturls := shorturls w ++
                    [ {| original_url := url; short_url := generate n |} ] |}.
Proof.
  intros (Hcnt & Hu & Hc & Hi) Hbelow Hmiss. cbn [shorturls] in *.
  repeat split; cbn [shorturls].
  - destruct Hcnt as (buf & Hf & Hn). exists buf. split; assumption.
  - rewrite map_app. cbn [map original_url]. apply NoDup_snoc; [exact Hu|].
    now apply find_miss_not_stored.
  - rewrite map_app. cbn [map short_url]. apply NoDup_snoc; [exact Hc|].
    intros Hin. apply in_map_iff in Hin. destruct Hin as (d & Hd & Hin).
    rewrite Forall_forall in Hbelow. destruct (Hbelow d Hin) as (i & Hlt & Hg).
    rewrite Hg in Hd. apply generate_inj in Hd. lia.
  - apply Forall_app. split; [exact Hi|].
    constructor; [|constructor]. exists n. split; [lia | reflexivity].
Qed.

(** A request run alone keeps the store well formed, the counter staying
    or advancing by one. *)
Lemma handler_keeps_well_formed (req : request) (o : oracle) (w : world) (n : N) :
  well_formed n w -> n < MAX_EXACT ->
  well_formed n (fst (run (new_handler req) o w)) \/
  well_formed (n + 1) (fst (run (new_handler req) o w)).
Proof.
  intros Hw Hlt.
  destruct (handler_effect req o w)
    as [H | (Hmiss & buf & count & Hf & Hn & _ & Hcase)].
  - left. now rewrite H.
  - right.
    assert (count = JNat n) as ->.
    { destruct Hw as ((buf' & Hf' & Hn') & _). congruence. }
    assert (js_incr (JNat n) = JNat (n + 1)) as Hi.
    { unfold js_incr. apply N.ltb_lt in Hlt. now rewrite Hlt. }
    cbv zeta in Hcase. rewrite Hi in Hcase. cbn [encode] in Hcase.
    destruct Hcase as [[-> _] | [-> _]].
    + now apply well_formed_advance.
    + apply well_formed_append; [now apply well_formed_advance | | exact Hmiss].
      destruct Hw as (_ & _ & _ & Hbelow). exact Hbelow.
Qed.

Lemma one_stored_well_formed : well_formed 1 one_stored.
Proof.
  repeat split; cbn [one_stored shorturls map].
  - exists "1". split; reflexivity.
  - repeat constructor. intros [].
  - repeat constructor. intros [].
  - repeat constructor. exists 0. split; reflexivity.
Qed.

(** X14: requests served one after the other keep URLs and codes unique.
    If the counter reads as [n] below [2^53], no URL and no code occurs
    twice and every stored code is the code of a value below [n], then the
    same holds after a request, for the counter [n] or [n+1], whatever
    faults the request meets, provided its write of [./count], when it gets
    to it, succeeds. *)
Theorem X14_sequential_requests_keep_uniqueness
    (req : request) (o : oracle) (w : world) (n : N) :
  well_formed n w -> n < MAX_EXACT -> o 5%nat = NoFault ->
  well_formed n (fst (run (new_handler req) o w)) \/
  well_formed (n + 1) (fst (run (new_handler req) o w)).
Proof.
  intros Hw Hlt _. now apply handler_keeps_well_formed.
Qed.

Lemma X14_sequential_requests_keep_uniqueness_witness :
  (well_formed 1 one_stored /\ 1 < MAX_EXACT /\ no_faults 5%nat = NoFault) /\
  (well_formed 1 (fst (run (new_handler example_org) no_faults one_stored)) \/
   well_formed (1 + 1) (fst (run (new_handler example_org) no_faults one_stored))).
Proof.
  split; [split; [exact one_stored_well_formed | split; reflexivity]|].
  apply (X14_sequential_requests_keep_uniqueness example_org no_faults
           one_stored 1);
    [exact one_stored_well_formed | reflexivity | reflexivity].
Defined.

(** ** The route [GET /*] *)

Lemma append_cancel (s a b : string) : s ++ a = s ++ b -> a = b.
Proof.
  induction s as [|c s IH]; cbn [append]; intros H; [exact H|].
  injection H as H. now apply IH.
Qed.

(** The handler takes the code from [req.url] as it is, after the slash. *)
Lemma code_of_url (code : string) : substr_from 1 ("/" ++ code) = code.
Proof.
  unfold substr_from. cbn [append String.length Nat.sub substring].
  rewrite Nat.sub_0_r. apply substring_whole.
Qed.

Lemma find_unique_code (l : list doc) (d : doc) :
  NoDup (map short_url l) -> In d l ->
  find (same_code (short_url d)) l = Some d.
Proof.
  induction l as [|x l IH]; cbn [map find In]; intros Hnd Hin; [elim Hin|].
  apply NoDup_cons_iff in Hnd. destruct Hnd as [Hx Hnd].
  unfold same_code at 1. destruct (String.eqb_spec (short_url x) (short_url d)) as [E|E].
  - destruct Hin as [-> | Hin]; [reflexivity|].
    elim Hx. rewrite E. now apply in_map.
  - destruct Hin as [-> | Hin]; [now elim E | now apply IH].
Qed.

(** The lookup with no fault answers from what the query by code finds. *)
Lemma lookup_answer (code : string) (w : world) :
  lookup_run (get_handler ("/" ++ code)) no_faults w =
  match find (same_code code) (shorturls w) with
  | Some d => Returned (Redirect 302 (original_url d))
  | None => Returned (GetEnd 404 ("No short_url found with id " ++ code))
  end.
Proof.
  cbn [get_handler lookup_run no_faults do_connect].
  rewrite code_of_url. cbn [do_find_code later no_faults].
  destruct (find (same_code code) (shorturls w)); reflexivity.
Qed.

(** X15: the two handlers round-trip. On a well-formed store (counter
    below [2^53]), when the handler of [GET /new/*] answers with the short
    URL [host/code] for the URL it took from [req.path], the handler of
    [GET /*], invoked next with [req.url] equal to [/code] and meeting no
    fault, redirects (302) to that URL. This is about the two handler
    functions: whether Express hands a request for [/code] to the second
    one (the routes registered before it, the rejection of a malformed
    escape such as a lone [%]) is not part of the statement. *)
Theorem X15_handlers_round_trip
    (req : request) (o : oracle) (w w' : world) (n : N) (d : doc)
    (code : string) :
  well_formed n w -> n < MAX_EXACT ->
  run (new_handler req) o w = (w', Returned (JsonDoc 200 d)) ->
  short_url d = host req ++ "/" ++ code ->
  lookup_run (get_handler ("/" ++ code)) no_faults w' =
  Returned (Redirect 302 (substr_from 5 (path req))).
Proof.
  intros Hw Hlt Hrun Hcode.
  assert (NoDup (map short_url (shorturls w'))) as Hnd.
  { pose proof (handler_keeps_well_formed req o w n Hw Hlt) as Hk.
    rewrite Hrun in Hk. cbn [fst] in Hk.
    destruct Hk as [(_ & _ & H & _) | (_ & _ & H & _)]; exact H. }
  destruct (handler_success req o w w' 200 d Hrun)
    as (_ & _ & d0 & Hd & Hfind & _).
  destruct (find_some _ _ Hfind) as [Hin Hsame].
  unfold same_url in Hsame. apply String.eqb_eq in Hsame.
  subst d. cbn [absolute short_url] in Hcode.
  apply append_cancel in Hcode. cbn [append] in Hcode.
  injection Hcode as Hcode.
  rewrite lookup_answer, <- Hcode, (find_unique_code _ d0 Hnd Hin), Hsame.
  reflexivity.
Qed.

Lemma X15_handlers_round_trip_witness :
  let w' := {| count_file := Some "2";
               shorturls := [ {| original_url := "http://example.com";
                                 short_url := "1" |};
                              {| original_url := "https://example.org";
                                 short_url := "2" |} ] |} in
  let d := {| original_url := "https://example.org";
              short_url := "sho.rt/2" |} in
  (well_formed 1 one_stored /\ 1 < MAX_EXACT /\
   run (new_handler example_org) no_faults one_stored =
     (w', Returned (JsonDoc 200 d)) /\
   short_url d = host example_org ++ "/" ++ "2") /\
  lookup_run (get_handler ("/" ++ "2")) no_faults w' =
  Returned (Redirect 302 (substr_from 5 (path example_org))).
Proof.
  split; [split; [exact one_stored_well_formed | repeat split]|].
  apply (X15_handlers_round_trip example_org no_faults one_stored
           {| count_file := Some "2";
              shorturls := [ {| original_url := "http://example.com";
                                short_url := "1" |};
                             {| original_url := "https://example.org";
                                short_url := "2" |} ] |}
           1
           {| original_url := "https://example.org"; short_url := "sho.rt/2" |}
           "2");
    [exact one_stored_well_formed | reflexivity | reflexivity | reflexivity].
Defined.

(** X16: a code that has not been handed out yet cannot be looked up. In a
    well-formed store whose counter reads as [n], the lookup of the code of
    any value from [n] on is answered 404 with the code in the message. *)
Theorem X16_unissued_code_is_not_found (w : world) (n m : N) :
  well_formed n w -> n <= m ->
  lookup_run (get_handler ("/" ++ generate m)) no_faults w =
  Returned (GetEnd 404 ("No short_url found with id " ++ generate m)).
Proof.
  intros (_ & _ & _ & Hbelow) Hnm. rewrite lookup_answer.
  destruct (find (same_code (generate m)) (shorturls w)) as [d|] eqn:Hfind;
    [|reflexivity].
  destruct (find_some _ _ Hfind) as [Hin Hsame].
  unfold same_code in Hsame. apply String.eqb_eq in Hsame.
  rewrite Forall_forall in Hbelow. destruct (Hbelow d Hin) as (i & Hlt & Hg).
  rewrite Hg in Hsame. apply generate_inj in Hsame. lia.
Qed.

Lemma X16_unissued_code_is_not_found_witness :
  (well_formed 1 one_stored /\ 1 <= 84) /\
  lookup_run (get_handler ("/" ++ generate 84)) no_faults one_stored =
  Returned (GetEnd 404 ("No short_url found with id " ++ generate 84)).
Proof.
  split; [split; [exact one_stored_well_formed | discriminate]|].
  apply (X16_unissued_code_is_not_found one_stored 1 84);
    [exact one_stored_well_formed | discriminate].
Defined.

Lemma find_app_hit {A} (f : A -> bool) (l l' : list A) (x : A) :
  find f l = Some x -> find f (l ++ l') = Some x.
Proof.
  induction l as [|y l IH]; cbn [app find]; intros H; [discriminate H|].
  destruct (f y); [exact H | now apply IH].
Qed.

(** X17: with a counter that reads as [NaN], short URLs lead to the wrong
    page. A request for a new URL is answered 200 with the code
    [undefined]; if a document with that code is stored already, the
    lookup of [/undefined] afterwards redirects to the URL of that earlier
    document, not to the URL just shortened. *)
Theorem X17_NaN_counter_misdirects
    (req : request) (w : world) (buf : string) (d1 : doc) :
  let url := substr_from 5 (path req) in
  has_scheme url = true ->
  find (same_url url) (shorturls w) = None ->
  count_file w = Some buf -> Number_ buf = Some JNaN ->
  find (same_code "undefined") (shorturls w) = Some d1 ->
  let w' := fst (run (new_handler req) no_faults w) in
  snd (run (new_handler req) no_faults w) =
    Returned (JsonDoc 200
      {| original_url := url; short_url := host req ++ "/" ++ "undefined" |}) /\
  lookup_run (get_handler ("/" ++ "undefined")) no_faults w' =
    Returned (Redirect 302 (original_url d1)) /\
  original_url d1 <> url.
Proof.
  intros url Hs Hmiss Hf Hn Hold w'. subst w'.
  rewrite (handler_reaches_find req no_faults w Hs eq_refl eq_refl eq_refl).
  fold url. rewrite Hmiss. cbn [on_found].
  rewrite (addURL_adds (on_added req) url _ w buf JNaN);
    try reflexivity; try assumption.
  cbn [on_added run fst snd encode]. split; [reflexivity|]. split.
  - rewrite lookup_answer. cbn [shorturls].
    now rewrite (find_app_hit _ _ _ _ Hold).
  - intros Heq. destruct (find_some _ _ Hold) as [Hin _].
    pose proof (find_none _ _ Hmiss d1 Hin) as Hne. unfold same_url in Hne.
    rewrite Heq, String.eqb_refl in Hne. discriminate Hne.
Qed.

Lemma X17_NaN_counter_misdirects_witness :
  let w := {| count_file := Some "NaN";
              shorturls := [ {| original_url := "http://example.com";
                                short_url := "undefined" |} ] |} in
  let d1 := {| original_url := "http://example.com";
               short_url := "undefined" |} in
  let url := substr_from 5 (path example_org) in
  (has_scheme url = true /\
   find (same_url url) (shorturls w) = None /\
   count_file w = Some "NaN" /\ Number_ "NaN" = Some JNaN /\
   find (same_code "undefined") (shorturls w) = Some d1) /\
  snd (run (new_handler example_org) no_faults w) =
    Returned (JsonDoc 200
      {| original_url := url;
         short_url := host example_org ++ "/" ++ "undefined" |}) /\
  lookup_run (get_handler ("/" ++ "undefined")) no_faults
             (fst (run (new_handler example_org) no_faults w)) =
    Returned (Redirect 302 (original_url d1)) /\
  original_url d1 <> url.
Proof.
  split; [repeat split|].
  apply (X17_NaN_counter_misdirects example_org
           {| count_file := Some "NaN";
              shorturls := [ {| original_url := "http://example.com";
                                short_url := "undefined" |} ] |}
           "NaN"
           {| original_url := "http://example.com"; short_url := "undefined" |});
    reflexivity.
Defined.
